(** * Muller's root-finding method: a shallow embedding of
      [muller-root-finding-arithmetic-method.cpp]

    The program reads two edge points, an iteration budget and a number of
    tolerance digits, validates them, allocates four history arrays, runs
    Muller's iteration on f(x) = x^6 - 2 and prints the recorded history.

    Modelling choices.
    - [double] is IEEE 754 binary64: the kernel's primitive [float], with its
      correctly rounded [+ - * / sqrt], [abs] and comparisons.  Each C++
      expression is evaluated operation by operation in binary64 (no fused
      multiply-add, no extended precision).
    - [pow] comes from the C library and is not part of the repository; the
      whole development is parametric in it (Section variable [pow]).
      [sqrt] is the correctly rounded square root and [abs], with <cmath>
      and [using namespace std], is the [double] overload.
    - Standard input is the four values the program extracts, in reading
      order; the prompts written before each extraction are part of the
      output, which fixes the order of checks and prompts.  The model covers
      the runs in which each extraction stores a value: [x0], [x1],
      [usr_iters] and [n] have no initialiser, and a run in which
      [operator>>] stores nothing reads them indeterminate, which [input]
      does not express.
    - [int] values are mathematical integers ([Z]); on the validated path
      every [int] stays below 1000002, far from wrap-around.
    - The four arrays are lists of floats with checked reads and writes: an
      access outside the block is undefined behaviour and makes the run
      [None].  [iters] is declared without initialiser, so it is an
      [option Z] and reading it unassigned is undefined behaviour as well.
    - [malloc] may fail and returns a block of arbitrary content; both are
      decided by the environment ([mallocs]).
    - Console output is a list of events; the decimal rendering of numbers
      by [printf] and [cout] is not modelled, a table row carries its five
      numbers. *)

From Stdlib Require Import ZArith Floats String.
From Stdlib Require Uint63.
From stdpp Require Import base option list.

Local Open Scope Z_scope.

(** ** Constants of the program *)

Definition MAX_ITERATIONS : Z := 1000000.
Definition MAX_TOLERANCES : Z := 40.

(** [EXIT_SUCCESS] and [EXIT_FAILURE] of <cstdlib>, with the values of the
    GNU C library. *)
Definition EXIT_SUCCESS : Z := 0.
Definition EXIT_FAILURE : Z := 1.

Definition sizeof_double : Z := 8.

(** ** Conversions from [int] to [double] *)

(** The usual arithmetic conversion of an [int] operand to [double]; exact
    for every 32-bit integer. *)
Definition double_of_int (z : Z) : float :=
  if z <? 0 then PrimFloat.opp (PrimFloat.of_uint63 (Uint63.of_Z (- z)))
  else PrimFloat.of_uint63 (Uint63.of_Z z).

(** ** [sign] *)

(** [int sign (double x)]: [x > 0] is [0 < x]. *)
Definition sign (x : float) : Z :=
  if PrimFloat.ltb 0%float x then 1
  else if PrimFloat.ltb x 0%float then -1
  else 0.

(** ** Console, input and memory *)

(** What the program writes on standard output. *)
Inductive event :=
| Text (s : string)      (* characters written by [cout << "..."] or [printf] *)
| Newline                (* [endl], or the newline ending a [printf] format *)
| Int (z : Z)            (* an integer written by [cout] *)
| Row (step : Z) (xv yv dv cv : float).   (* one table row of [printf] *)

(** The four values extracted from standard input, in reading order, each
    extraction having stored a value. *)
Record input := {
  in_x0 : float;
  in_x1 : float;
  in_iters : Z;
  in_n : Z
}.

(** What the four calls of [malloc] answer, in calling order: [None] is a
    null pointer, [Some g] a block whose cell [k] initially holds [g k]. *)
Record mallocs := {
  m_x : option (nat -> float);
  m_y : option (nat -> float);
  m_d : option (nat -> float);
  m_c : option (nat -> float)
}.

(** A block handed out by [malloc]; a pointer is an [option block]. *)
Record block := { addr : nat; cells : list float }.

(** The allocator's state: the next fresh address and the live blocks with
    their sizes in bytes. *)
Record heap := { next : nat; live : list (nat * Z) }.

Definition empty_heap : heap := {| next := 1; live := [] |}.

Definition malloc (answer : option (nat -> float)) (bytes : Z) (h : heap)
  : option block * heap :=
  match answer with
  | None => (None, h)
  | Some g =>
      (Some {| addr := next h;
               cells := g <$> seq 0 (Z.to_nat (bytes / sizeof_double)) |},
       {| next := S (next h); live := live h ++ [(next h, bytes)] |})
  end.

Definition is_live (a : nat) (h : heap) : bool :=
  existsb (fun b => Nat.eqb (fst b) a) (live h).

(** [free (p)]: nothing for a null pointer, undefined for a block that is
    not live. *)
Definition free (p : option block) (h : heap) : option heap :=
  match p with
  | None => Some h
  | Some b =>
      if is_live (addr b) h
      then Some {| next := next h;
                   live := List.filter (fun e => negb (Nat.eqb (fst e) (addr b))) (live h) |}
      else None
  end.

(** How the process ended. *)
Record exited := {
  status : Z;
  stdout : list event;
  heap_at_exit : heap
}.

(** ** Array accesses *)

(** [a[i]] as an rvalue. *)
Definition rd (a : list float) (i : Z) : option float :=
  if 0 <=? i then a !! Z.to_nat i else None.

(** [a[i] = v]. *)
Definition wr (a : list float) (i : Z) (v : float) : option (list float) :=
  if (0 <=? i) && (i <? Z.of_nat (length a))
  then Some (<[Z.to_nat i := v]> a) else None.

(** ** The local variables of [main] that the solve updates *)

Record locals := {
  x : list float;
  y : list float;
  d : list float;
  c : list float;
  iters : option Z;
  find_root : bool;
  out : list event
}.

Section Muller.

(** [double pow (double, double)] of <cmath>. *)
Variable pow : float -> float -> float.

(** [double function (double x)]: [pow (x, 6) - 2]. *)
Definition function (v : float) : float := (pow v 6 - 2)%float.

(** [tol = 0.5 * pow (10, -n)]. *)
Definition tolerance (n : Z) : float :=
  (0.5 * pow 10 (double_of_int (- n)))%float.

(** Lines 171-172: [for (i = 0; i < arr_size; ++i) x[i] = y[i] = d[i] = c[i] = 0]. *)
Fixpoint init_zero (fuel : nat) (arr_size i : Z) (st : locals) : option locals :=
  if i <? arr_size then
    match fuel with
    | O => None
    | S fuel' =>
        c' ← wr (c st) i 0%float;
        d' ← wr (d st) i 0%float;
        y' ← wr (y st) i 0%float;
        x' ← wr (x st) i 0%float;
        init_zero fuel' arr_size (i + 1)
          {| x := x'; y := y'; d := d'; c := c'; iters := iters st;
             find_root := find_root st; out := out st |}
    end
  else Some st.

(** Lines 180-192: the three starting points and the first divided
    difference. *)
Definition seed (x0 x1 : float) (st : locals) : option locals :=
  x' ← wr (x st) 0 x0;
  x' ← wr x' 1 x1;
  a0 ← rd x' 0; a1 ← rd x' 1;
  x' ← wr x' 2 ((a0 + a1) / 2)%float;
  a0 ← rd x' 0; y' ← wr (y st) 0 (function a0);
  a1 ← rd x' 1; y' ← wr y' 1 (function a1);
  a2 ← rd x' 2; y' ← wr y' 2 (function a2);
  y1 ← rd y' 1; y0 ← rd y' 0; a1 ← rd x' 1; a0 ← rd x' 0;
  c' ← wr (c st) 0 ((y1 - y0) / (a1 - a0))%float;
  Some {| x := x'; y := y'; d := d st; c := c'; iters := iters st;
          find_root := find_root st; out := out st |}.

(** Lines 197-221: one pass through the body of the solve loop.  The
    boolean tells whether the pass left the loop through [break]. *)
Definition body (tol : float) (i : Z) (st : locals) : option (locals * bool) :=
  (* iters = i; *)
  let iters' := Some i in
  (* c[i-1] = (y[i-0] - y[i-1]) / (x[i] - x[i-1]); *)
  yi ← rd (y st) (i - 0); yi1 ← rd (y st) (i - 1);
  xi ← rd (x st) i; xi1 ← rd (x st) (i - 1);
  c' ← wr (c st) (i - 1) ((yi - yi1) / (xi - xi1))%float;
  (* d[i-2] = (c[i-1] - c[i-2]) / (x[i] - x[i-2]); *)
  ci1 ← rd c' (i - 1); ci2 ← rd c' (i - 2);
  xi ← rd (x st) i; xi2 ← rd (x st) (i - 2);
  d' ← wr (d st) (i - 2) ((ci1 - ci2) / (xi - xi2))%float;
  (* s = c[i-1] + (x[i] - x[i-1]) * d[i-2]; *)
  ci1 ← rd c' (i - 1); xi ← rd (x st) i; xi1 ← rd (x st) (i - 1);
  di2 ← rd d' (i - 2);
  let s := (ci1 + (xi - xi1) * di2)%float in
  (* x[i+1] = x[i] - 2*y[i] / (s + sign (s) * sqrt (abs (pow (s, 2) - 4*y[i]*d[i]))); *)
  xi ← rd (x st) i; yi ← rd (y st) i; di ← rd d' i;
  x' ← wr (x st) (i + 1)
        (xi - 2 * yi / (s + double_of_int (sign s)
                              * sqrt (abs (pow s 2 - 4 * yi * di))))%float;
  (* y[i+1] = function (x[i+1]); *)
  xn ← rd x' (i + 1);
  y' ← wr (y st) (i + 1) (function xn);
  (* if (abs (x[i+1] - x[i]) < tol) *)
  xn ← rd x' (i + 1); xi ← rd x' i;
  if (abs (xn - xi) <? tol)%float
  then Some ({| x := x'; y := y'; d := d'; c := c'; iters := iters';
                find_root := true;
                out := out st ++ [Text "Method has converged to a root."; Newline] |},
             true)
  else Some ({| x := x'; y := y'; d := d'; c := c'; iters := iters';
                find_root := find_root st; out := out st |},
             false).

(** Lines 195-222: [for (int i = 2; i < usr_iters; ++i) { ... }]. *)
Fixpoint loop (fuel : nat) (tol : float) (usr_iters i : Z) (st : locals)
  : option locals :=
  if i <? usr_iters then
    match fuel with
    | O => None
    | S fuel' =>
        '(st', stop) ← body tol i st;
        if stop : bool then Some st'
        else loop fuel' tol usr_iters (i + 1) st'
    end
  else Some st.

(** Lines 170-192: zero the arrays and seed them. *)
Definition prepare (inp : input) (ax ay ad ac : list float) (o : list event)
  : option locals :=
  let arr_size := in_iters inp + 1 in
  st ← init_zero (Z.to_nat arr_size) arr_size 0
         {| x := ax; y := ay; d := ad; c := ac; iters := None;
            find_root := false; out := o |};
  seed (in_x0 inp) (in_x1 inp) st.

(** Lines 170-222: prepare the arrays, then iterate. *)
Definition solve (inp : input) (ax ay ad ac : list float) (o : list event)
  : option locals :=
  let usr_iters := in_iters inp in
  let tol := tolerance (in_n inp) in
  st ← prepare inp ax ay ad ac o;
  loop (Z.to_nat usr_iters) tol usr_iters 2 st.

(** Lines 225-228: the message for an exhausted budget. *)
Definition report (usr_iters : Z) (st : locals) : option (list event) :=
  last ← iters st;
  if usr_iters - 1 <=? last then
    if negb (find_root st)
    then Some (out st ++ [Text "Method it didn't reach the allowed tolerance."; Newline])
    else Some (out st)
  else Some (out st).

(** Lines 238-242: [for (int i = 0; i <= iters; ++i) printf (...)]. *)
Fixpoint print_rows (fuel : nat) (st : locals) (i : Z) (o : list event)
  : option (list event) :=
  last ← iters st;
  if i <=? last then
    match fuel with
    | O => None
    | S fuel' =>
        xi ← rd (x st) i; yi ← rd (y st) i;
        di ← rd (d st) i; ci ← rd (c st) i;
        print_rows fuel' st (i + 1) (o ++ [Row (i + 1) xi yi di ci])
    end
  else Some o.

(** The header line of the table, as [printf] pads it. *)
Definition header : list event :=
  [Text "|step]     |x]                      |f(x)]                   ";
   Text "|d]                      |c]"; Newline].

(** [int main (void)]. *)
Definition main (env : mallocs) (inp : input) : option exited :=
  let o := [Text "Muller's root-finding arithmetic method."; Newline; Newline] in
  let o := o ++ [Text "Input point x0: "] in
  let x0 := in_x0 inp in
  let o := o ++ [Text "Input point x1: "] in
  let x1 := in_x1 inp in
  if (x0 =? x1)%float then
    Some {| status := EXIT_FAILURE;
            stdout := o ++ [Newline; Text "Values x0, x1 should be different."; Newline];
            heap_at_exit := empty_heap |}
  else
  let o := o ++ [Text "Iterations: "] in
  let usr_iters := in_iters inp in
  if (usr_iters <=? 2) || (MAX_ITERATIONS <? usr_iters) then
    Some {| status := EXIT_FAILURE;
            stdout := o ++ [Newline; Text "Iterations value: 2<i<=";
                            Int MAX_ITERATIONS; Newline];
            heap_at_exit := empty_heap |}
  else
  let o := o ++ [Text "Tolerance: "] in
  let n := in_n inp in
  if (n <=? 0) || (MAX_TOLERANCES <? n) then
    Some {| status := EXIT_FAILURE;
            stdout := o ++ [Newline; Text "Tolerance value: 0<t<=";
                            Int MAX_TOLERANCES; Newline];
            heap_at_exit := empty_heap |}
  else
  let arr_size := usr_iters + 1 in
  let '(px, h) := malloc (m_x env) (arr_size * sizeof_double) empty_heap in
  let '(py, h) := malloc (m_y env) (arr_size * sizeof_double) h in
  let '(pd, h) := malloc (m_d env) (arr_size * sizeof_double) h in
  let '(pc, h) := malloc (m_c env) (arr_size * sizeof_double) h in
  let o := o ++ [Newline] in
  match px, py, pd, pc with
  | Some bx, Some by', Some bd, Some bc =>
      st ← solve inp (cells bx) (cells by') (cells bd) (cells bc) o;
      o ← report usr_iters st;
      let o := o ++ [Newline] in
      let o := o ++ header in
      last ← iters st;
      o ← print_rows (Z.to_nat (last + 1)) st 0 o;
      h ← free px h; h ← free py h;
      h ← free pd h; h ← free pc h;
      Some {| status := EXIT_SUCCESS; stdout := o; heap_at_exit := h |}
  | _, _, _, _ =>
      Some {| status := EXIT_FAILURE;
              stdout := o ++ [Text "Dynamic memory allocation problem (";
                              Int (arr_size * sizeof_double);
                              Text " bytes)."; Newline];
              heap_at_exit := h |}
  end.

End Muller.

(** ** A power function to run the program with *)

(** The integer a double holds, when it holds one. *)
Definition int_of_double (e : float) : option Z :=
  match Prim2SF e with
  | S754_zero _ => Some 0
  | S754_finite sg m ex =>
      let v := if 0 <=? ex then Z.pos m * 2 ^ ex
               else Z.pos m / 2 ^ (- ex) in
      if (0 <=? ex) || (Z.pos m mod 2 ^ (- ex) =? 0)
      then Some (if sg then - v else v) else None
  | _ => None
  end.

Fixpoint pow_nat (b : float) (k : nat) : float :=
  match k with
  | O => 1%float
  | S k' => (pow_nat b k' * b)%float
  end.

(** Powers with an integral exponent by repeated multiplication; an
    instance of [pow] on which runs can be evaluated. *)
Definition pow_repeated (b e : float) : float :=
  match int_of_double e with
  | Some k => if k <? 0 then (1 / pow_nat b (Z.to_nat (- k)))%float
              else pow_nat b (Z.to_nat k)
  | None => nan
  end.

(** ** Runs to evaluate *)

(** Every allocation succeeds and returns blocks filled with not-a-number. *)
Definition env_ok : mallocs :=
  {| m_x := Some (fun _ => nan); m_y := Some (fun _ => nan);
     m_d := Some (fun _ => nan); m_c := Some (fun _ => nan) |}.

(** The fourth allocation fails. *)
Definition env_c_fails : mallocs :=
  {| m_x := Some (fun _ => nan); m_y := Some (fun _ => nan);
     m_d := Some (fun _ => nan); m_c := None |}.

(** Every allocation succeeds and returns blocks filled with ones. *)
Definition env_ones : mallocs :=
  {| m_x := Some (fun _ => 1%float); m_y := Some (fun _ => 1%float);
     m_d := Some (fun _ => 1%float); m_c := Some (fun _ => 1%float) |}.

(** The second and the fourth allocation fail. *)
Definition env_y_c_fail : mallocs :=
  {| m_x := Some (fun _ => nan); m_y := None;
     m_d := Some (fun _ => nan); m_c := None |}.

(** A block of [n] cells as [malloc] may return it. *)
Definition nan_block (n : nat) : list float := replicate n nan.

(** Example 1 of the source's header comment. *)
Definition example1 : input :=
  {| in_x0 := 1; in_x1 := 2; in_iters := 20; in_n := 15 |}.

(** Example 2 of the source's header comment. *)
Definition example2 : input :=
  {| in_x0 := -1; in_x1 := -2; in_iters := 20; in_n := 15 |}.

(** The smallest accepted budget, with a tolerance it cannot reach. *)
Definition short_run : input :=
  {| in_x0 := 1; in_x1 := 2; in_iters := 3; in_n := 15 |}.

(** A run that divides by zero in its first pass. *)
Definition degenerate_run : input :=
  {| in_x0 := 1; in_x1 := -1; in_iters := 6; in_n := 3 |}.

(** ** Vocabulary of the statements *)

(** The three checks of lines 115-139 all pass. *)
Definition validated (inp : input) : Prop :=
  (in_x0 inp =? in_x1 inp)%float = false /\
  2 < in_iters inp <= MAX_ITERATIONS /\
  0 < in_n inp <= MAX_TOLERANCES.

(** One of the three checks of lines 115-139 fails. *)
Definition violation (inp : input) : Prop :=
  (in_x0 inp =? in_x1 inp)%float = true \/
  ~ (2 < in_iters inp <= MAX_ITERATIONS) \/
  ~ (0 < in_n inp <= MAX_TOLERANCES).

(** All four calls of [malloc] return a block. *)
Definition allocated (env : mallocs) : Prop :=
  is_Some (m_x env) /\ is_Some (m_y env) /\
  is_Some (m_d env) /\ is_Some (m_c env).

(** The four arrays have [usr_iters + 1] cells each. *)
Definition sized (inp : input) (ax ay ad ac : list float) : Prop :=
  Z.of_nat (length ax) = in_iters inp + 1 /\
  Z.of_nat (length ay) = in_iters inp + 1 /\
  Z.of_nat (length ad) = in_iters inp + 1 /\
  Z.of_nat (length ac) = in_iters inp + 1.

(** The test of line 215 on the recorded history, at step [k]. *)
Definition converged_at (tol : float) (st : locals) (k : Z) : option bool :=
  xn ← rd (x st) (k + 1); xk ← rd (x st) k;
  Some (abs (xn - xk) <? tol)%float.

(** The texts of the two outcome messages. *)
Definition msg_converged : string := "Method has converged to a root.".
Definition msg_exhausted : string :=
  "Method it didn't reach the allowed tolerance.".

Definition is_text (s : string) (e : event) : bool :=
  match e with
  | Text t => String.eqb s t
  | _ => false
  end.

Definition is_row (e : event) : bool :=
  match e with
  | Row _ _ _ _ _ => true
  | _ => false
  end.

(** How often the text [s] was written. *)
Definition count_text (s : string) (o : list event) : nat :=
  length (List.filter (is_text s) o).

(** What [main] has written when the solve starts. *)
Definition prompts : list event :=
  [Text "Muller's root-finding arithmetic method."; Newline; Newline;
   Text "Input point x0: "; Text "Input point x1: ";
   Text "Iterations: "; Text "Tolerance: "; Newline].

(** A double that is neither infinite nor not-a-number. *)
Definition is_finite (v : float) : bool := (abs v <? infinity)%float.

(** How many of the four calls of [malloc] return a block. *)
Definition obtained (answer : option (nat -> float)) : nat :=
  match answer with
  | Some _ => 1
  | None => 0
  end.

Definition blocks_obtained (env : mallocs) : nat :=
  obtained (m_x env) + obtained (m_y env)
  + obtained (m_d env) + obtained (m_c env).

(** Two states hold the same history in the cells [0 .. bound]. *)
Definition agree (bound : Z) (st st' : locals) : Prop :=
  forall j, 0 <= j <= bound ->
    rd (x st) j = rd (x st') j /\ rd (y st) j = rd (y st') j /\
    rd (d st) j = rd (d st') j /\ rd (c st) j = rd (c st') j.

(** The same run with another iteration budget. *)
Definition with_iters (inp : input) (n : Z) : input :=
  {| in_x0 := in_x0 inp; in_x1 := in_x1 inp; in_iters := n;
     in_n := in_n inp |}.

Section Specification.

Variable pow : float -> float -> float.

(** The approximation that follows [xi], from the slope [s] and the value
    [di] found in slot [d[i]]. *)
Definition next_x (xi yi s di : float) : float :=
  (xi - 2 * yi / (s + double_of_int (sign s)
                        * sqrt (abs (pow s 2 - 4 * yi * di))))%float.

(** The recorded history holds what step [k] computed; the discriminant was
    taken with slot [d[k]] still at its zero initialisation. *)
Definition step_done (st : locals) (k : Z) : Prop :=
  exists xk xk1 xk2 yk yk1 ck1 ck2 dk2 xn,
    rd (x st) k = Some xk /\ rd (x st) (k - 1) = Some xk1 /\
    rd (x st) (k - 2) = Some xk2 /\
    rd (y st) k = Some yk /\ rd (y st) (k - 1) = Some yk1 /\
    rd (c st) (k - 1) = Some ck1 /\ rd (c st) (k - 2) = Some ck2 /\
    rd (d st) (k - 2) = Some dk2 /\ rd (x st) (k + 1) = Some xn /\
    ck1 = ((yk - yk1) / (xk - xk1))%float /\
    dk2 = ((ck1 - ck2) / (xk - xk2))%float /\
    xn = next_x xk yk (ck1 + (xk - xk1) * dk2)%float 0%float /\
    rd (y st) (k + 1) = Some (function pow xn).

(** The states in which the solve loop tests its condition: the state left
    by the seeding, and the state left by each pass that did not break. *)
Inductive loop_head (tol : float) (usr_iters : Z) (st0 : locals)
  : Z -> locals -> Prop :=
| head_first : loop_head tol usr_iters st0 2 st0
| head_next i st st' :
    loop_head tol usr_iters st0 i st ->
    i < usr_iters ->
    body pow tol i st = Some (st', false) ->
    loop_head tol usr_iters st0 (i + 1) st'.

(** The invariant of the solve loop when it tests [i < usr_iters]. *)
Record loop_inv (tol : float) (usr_iters : Z) (o : list event)
       (i : Z) (st : locals) : Prop := {
  inv_range : 2 <= i <= usr_iters;
  inv_len_x : Z.of_nat (length (x st)) = usr_iters + 1;
  inv_len_y : Z.of_nat (length (y st)) = usr_iters + 1;
  inv_len_d : Z.of_nat (length (d st)) = usr_iters + 1;
  inv_len_c : Z.of_nat (length (c st)) = usr_iters + 1;
  inv_x_zero : forall j, i + 1 <= j <= usr_iters -> rd (x st) j = Some 0%float;
  inv_y_zero : forall j, i + 1 <= j <= usr_iters -> rd (y st) j = Some 0%float;
  inv_d_zero : forall j, i - 2 <= j <= usr_iters -> rd (d st) j = Some 0%float;
  inv_c_zero : forall j, i - 1 <= j <= usr_iters -> rd (c st) j = Some 0%float;
  inv_steps : forall k, 2 <= k < i -> step_done st k;
  inv_no_conv : forall k, 2 <= k < i -> converged_at tol st k = Some false;
  inv_iters : iters st = if i =? 2 then None else Some (i - 1);
  inv_find_root : find_root st = false;
  inv_out : out st = o
}.

(** What holds of the state the solve loop leaves, [last] being the last
    step it ran. *)
Record loop_post (tol : float) (usr_iters : Z) (o : list event)
       (last : Z) (st : locals) : Prop := {
  post_range : 2 <= last < usr_iters;
  post_len_x : Z.of_nat (length (x st)) = usr_iters + 1;
  post_len_y : Z.of_nat (length (y st)) = usr_iters + 1;
  post_len_d : Z.of_nat (length (d st)) = usr_iters + 1;
  post_len_c : Z.of_nat (length (c st)) = usr_iters + 1;
  post_x_zero : forall j, last + 2 <= j <= usr_iters -> rd (x st) j = Some 0%float;
  post_y_zero : forall j, last + 2 <= j <= usr_iters -> rd (y st) j = Some 0%float;
  post_d_zero : forall j, last - 1 <= j <= usr_iters -> rd (d st) j = Some 0%float;
  post_c_zero : forall j, last <= j <= usr_iters -> rd (c st) j = Some 0%float;
  post_steps : forall k, 2 <= k <= last -> step_done st k;
  post_no_conv : forall k, 2 <= k < last -> converged_at tol st k = Some false;
  post_iters : iters st = Some last;
  post_end :
    (converged_at tol st last = Some true /\ find_root st = true /\
     out st = o ++ [Text msg_converged; Newline]) \/
    (converged_at tol st last = Some false /\ last = usr_iters - 1 /\
     find_root st = false /\ out st = o)
}.

End Specification.

(** ** Properties of [sign] *)

Lemma ltb_zero_asym (v : float) :
  PrimFloat.ltb v 0%float = true -> PrimFloat.ltb 0%float v = false.
Proof.
  rewrite !FloatAxioms.ltb_spec. change (Prim2SF 0%float) with (S754_zero false).
  destruct (Prim2SF v) as [ [] | [] | | [] m e ]; cbn; congruence.
Qed.

Lemma eqb_zero_not_ltb (v : float) :
  PrimFloat.eqb v 0%float = true ->
  PrimFloat.ltb 0%float v = false /\ PrimFloat.ltb v 0%float = false.
Proof.
  rewrite FloatAxioms.eqb_spec, !FloatAxioms.ltb_spec. change (Prim2SF 0%float) with (S754_zero false).
  destruct (Prim2SF v) as [ [] | [] | | [] m e ]; cbn; try congruence; auto.
Qed.

Lemma eqb_zero_inv (v : float) :
  (v =? 0)%float = true -> exists b, Prim2SF v = S754_zero b.
Proof.
  rewrite FloatAxioms.eqb_spec. change (Prim2SF 0%float) with (S754_zero false).
  destruct (Prim2SF v) as [ b | [] | | [] m e ]; cbn; try congruence; eauto.
Qed.

(** A double that is neither infinite nor not-a-number. *)
Lemma finite_inv (r : float) :
  (abs r <? infinity)%float = true ->
  (exists b, Prim2SF r = S754_zero b) \/
  (exists b m e, Prim2SF r = S754_finite b m e).
Proof.
  rewrite FloatAxioms.ltb_spec, FloatAxioms.abs_spec.
  change (Prim2SF infinity) with (S754_infinity false).
  destruct (Prim2SF r) as [ b | [] | | b m e ]; cbn; try congruence; eauto.
Qed.

(** C6: [sign] returns exactly 1 on a positive double, exactly -1 on a
    negative one and exactly 0 on a zero of either sign; so for [s == 0]
    the term [sign (s) * sqrt (...)] of the denominator of the update is a
    zero whenever the square root is finite, and the denominator compares
    equal to [s]. *)
Theorem sign_spec (v : float) :
  ((0 <? v)%float = true -> sign v = 1) /\
  ((v <? 0)%float = true -> sign v = -1) /\
  ((v =? 0)%float = true -> sign v = 0) /\
  ((v =? 0)%float = true ->
   forall r : float, (abs r <? infinity)%float = true ->
     (double_of_int (sign v) * r =? 0)%float = true /\
     (v + double_of_int (sign v) * r =? v)%float = true).
Proof.
  assert (Hz : (v =? 0)%float = true -> sign v = 0).
  { intros H0. unfold sign. by destruct (eqb_zero_not_ltb v H0) as [-> ->]. }
  split; [| split; [| split; [exact Hz |]]].
  - intros Hpos. unfold sign. by rewrite Hpos.
  - intros Hneg. unfold sign. by rewrite (ltb_zero_asym v Hneg), Hneg.
  - intros H0 r Hr. rewrite (Hz H0).
    change (double_of_int 0) with 0%float.
    destruct (eqb_zero_inv v H0) as [b Hv].
    assert (Hm : exists b', Prim2SF (0 * r)%float = S754_zero b').
    { rewrite FloatAxioms.mul_spec. change (Prim2SF 0%float) with (S754_zero false).
      destruct (finite_inv r Hr) as [[b' ->] | (b' & m & e & ->)]; cbn; eauto. }
    destruct Hm as [b' Hm]. split.
    + rewrite FloatAxioms.eqb_spec, Hm. done.
    + rewrite FloatAxioms.eqb_spec, FloatAxioms.add_spec, Hm, Hv.
      by destruct b, b'.
Qed.

(** The test of line 215 succeeds only between two finite doubles. *)
Lemma close_is_finite (a b tol : float) :
  (abs (a - b) <? tol)%float = true ->
  (abs a <? infinity)%float = true /\ (abs b <? infinity)%float = true.
Proof.
  rewrite !FloatAxioms.ltb_spec, !FloatAxioms.abs_spec, FloatAxioms.sub_spec.
  change (Prim2SF infinity) with (S754_infinity false).
  destruct (Prim2SF a) as [ sa | sa | | sa ma ea ];
    destruct (Prim2SF b) as [ sb | sb | | sb mb eb ];
    try (intros _; split; reflexivity);
    unfold SF64sub; cbn [SFsub SFabs];
    repeat match goal with
           | |- context [if ?t then _ else _] => destruct t
           end;
    cbn [SFabs]; destruct (Prim2SF tol) as [ | [] | | [] ? ? ]; cbn; congruence.
Qed.

(** ** Counting what was written *)

Lemma count_text_app s o1 o2 :
  count_text s (o1 ++ o2) = (count_text s o1 + count_text s o2)%nat.
Proof. unfold count_text. by rewrite List.filter_app, length_app. Qed.

Lemma count_text_rows s rows :
  forallb is_row rows = true -> count_text s rows = 0%nat.
Proof.
  unfold count_text. induction rows as [| [] rows IH]; cbn; done.
Qed.

Lemma filter_rows_only rows :
  forallb is_row rows = true -> List.filter is_row rows = rows.
Proof.
  induction rows as [| [] rows IH]; cbn; try done. intros. f_equal. by apply IH.
Qed.

(** Not-a-number is neither positive nor negative. *)
Example sign_nan : sign nan = 0.
Proof. reflexivity. Qed.

(** ** Checked array accesses *)

Lemma rd_lookup (a : list float) (i : Z) :
  0 <= i -> rd a i = a !! Z.to_nat i.
Proof. intros Hi. unfold rd. destruct (Z.leb_spec 0 i); [done | lia]. Qed.

Lemma rd_in_bounds (a : list float) (i : Z) :
  0 <= i < Z.of_nat (length a) -> exists v, rd a i = Some v.
Proof.
  intros Hi. rewrite rd_lookup by lia.
  destruct (lookup_lt_is_Some_2 a (Z.to_nat i)) as [v Hv]; [lia | eauto].
Qed.

Lemma wr_in_bounds (a : list float) (i : Z) (v : float) :
  0 <= i < Z.of_nat (length a) -> wr a i v = Some (<[Z.to_nat i := v]> a).
Proof.
  intros Hi. unfold wr.
  destruct (Z.leb_spec 0 i); [| lia].
  destruct (Z.ltb_spec i (Z.of_nat (length a))); [done | lia].
Qed.

Lemma rd_insert_eq (a : list float) (i : Z) (v : float) :
  0 <= i < Z.of_nat (length a) -> rd (<[Z.to_nat i := v]> a) i = Some v.
Proof.
  intros Hi. rewrite rd_lookup by lia. apply list_lookup_insert_eq. lia.
Qed.

Lemma rd_insert_ne (a : list float) (i j : Z) (v : float) :
  0 <= i -> i <> j -> rd (<[Z.to_nat i := v]> a) j = rd a j.
Proof.
  intros Hi Hne. unfold rd. destruct (Z.leb_spec 0 j); [| done].
  apply list_lookup_insert_ne. lia.
Qed.

(** ** One pass of the solve loop *)

Section Solve.

Variable pow : float -> float -> float.

Lemma body_run tol i st xi xi1 xi2 yi yi1 ci2 di :
  2 <= i ->
  i + 1 < Z.of_nat (length (x st)) -> i + 1 < Z.of_nat (length (y st)) ->
  i < Z.of_nat (length (d st)) -> i - 1 < Z.of_nat (length (c st)) ->
  rd (x st) i = Some xi -> rd (x st) (i - 1) = Some xi1 ->
  rd (x st) (i - 2) = Some xi2 ->
  rd (y st) i = Some yi -> rd (y st) (i - 1) = Some yi1 ->
  rd (c st) (i - 2) = Some ci2 -> rd (d st) i = Some di ->
  let ci1 := ((yi - yi1) / (xi - xi1))%float in
  let di2 := ((ci1 - ci2) / (xi - xi2))%float in
  let xn := next_x pow xi yi (ci1 + (xi - xi1) * di2)%float di in
  let stop := (abs (xn - xi) <? tol)%float in
  body pow tol i st =
  Some ({| x := <[Z.to_nat (i + 1) := xn]> (x st);
           y := <[Z.to_nat (i + 1) := function pow xn]> (y st);
           d := <[Z.to_nat (i - 2) := di2]> (d st);
           c := <[Z.to_nat (i - 1) := ci1]> (c st);
           iters := Some i;
           find_root := if stop then true else find_root st;
           out := if stop then out st ++ [Text msg_converged; Newline]
                  else out st |}, stop).
Proof.
  intros Hi Lx Ly Ld Lc Hxi Hxi1 Hxi2 Hyi Hyi1 Hci2 Hdi ci1 di2 xn stop.
  unfold body. replace (i - 0) with i by lia.
  rewrite Hyi, Hyi1, Hxi, Hxi1, Hxi2. cbn [mbind option_bind].
  rewrite (wr_in_bounds (c st)) by lia. cbn [mbind option_bind].
  rewrite rd_insert_eq by lia. rewrite rd_insert_ne by lia. rewrite Hci2.
  cbn [mbind option_bind].
  rewrite (wr_in_bounds (d st)) by lia. cbn [mbind option_bind].
  rewrite rd_insert_eq by lia. cbn [mbind option_bind].
  rewrite (rd_insert_ne (d st)) by lia. rewrite Hdi. cbn [mbind option_bind].
  rewrite (wr_in_bounds (x st)) by lia. cbn [mbind option_bind].
  rewrite rd_insert_eq by lia. cbn [mbind option_bind].
  rewrite (wr_in_bounds (y st)) by lia. cbn [mbind option_bind].
  rewrite (rd_insert_ne (x st)) by lia. rewrite Hxi. cbn [mbind option_bind].
  fold ci1. fold di2. unfold next_x in xn. fold xn. fold stop.
  destruct stop; reflexivity.
Qed.

(** A step already recorded is not touched by writes above it. *)
Lemma step_done_frame st st' k :
  (forall j, j <= k + 1 -> rd (x st') j = rd (x st) j) ->
  (forall j, j <= k + 1 -> rd (y st') j = rd (y st) j) ->
  (forall j, j <= k - 1 -> rd (c st') j = rd (c st) j) ->
  (forall j, j <= k - 2 -> rd (d st') j = rd (d st) j) ->
  step_done pow st k -> step_done pow st' k.
Proof.
  intros Fx Fy Fc Fd (xk & xk1 & xk2 & yk & yk1 & ck1 & ck2 & dk2 & xn & H).
  exists xk, xk1, xk2, yk, yk1, ck1, ck2, dk2, xn.
  rewrite !Fx, !Fy, !Fc, !Fd by lia. exact H.
Qed.

Lemma converged_at_frame tol st st' k :
  (forall j, j <= k + 1 -> rd (x st') j = rd (x st) j) ->
  converged_at tol st' k = converged_at tol st k.
Proof. intros Fx. unfold converged_at. by rewrite !Fx by lia. Qed.

Ltac rd_insert :=
  repeat first
    [ rewrite rd_insert_eq by (rewrite ?length_insert; lia)
    | rewrite rd_insert_ne by lia ].

(** One pass from a state that satisfies the invariant: it is defined, it
    reads slot [d[i]] at its zero initialisation, and it either re-establishes
    the invariant or leaves the loop converged. *)
Lemma body_inv tol usr_iters o i st :
  loop_inv pow tol usr_iters o i st -> i < usr_iters ->
  exists st' stop,
    body pow tol i st = Some (st', stop) /\
    converged_at tol st' i = Some stop /\
    (stop = false -> loop_inv pow tol usr_iters o (i + 1) st') /\
    (stop = true -> loop_post pow tol usr_iters o i st').
Proof.
  intros Inv Hlt. destruct Inv.
  destruct (rd_in_bounds (x st) i) as [xi Hxi]; [lia |].
  destruct (rd_in_bounds (x st) (i - 1)) as [xi1 Hxi1]; [lia |].
  destruct (rd_in_bounds (x st) (i - 2)) as [xi2 Hxi2]; [lia |].
  destruct (rd_in_bounds (y st) i) as [yi Hyi]; [lia |].
  destruct (rd_in_bounds (y st) (i - 1)) as [yi1 Hyi1]; [lia |].
  destruct (rd_in_bounds (c st) (i - 2)) as [ci2 Hci2]; [lia |].
  pose proof (inv_d_zero0 i ltac:(lia)) as Hdi.
  pose proof (body_run tol i st xi xi1 xi2 yi yi1 ci2 0%float
                ltac:(lia) ltac:(lia) ltac:(lia) ltac:(lia) ltac:(lia)
                Hxi Hxi1 Hxi2 Hyi Hyi1 Hci2 Hdi) as Hrun.
  cbv zeta in Hrun.
  set (ci1 := ((yi - yi1) / (xi - xi1))%float) in *.
  set (di2 := ((ci1 - ci2) / (xi - xi2))%float) in *.
  set (xn := next_x pow xi yi (ci1 + (xi - xi1) * di2)%float 0%float) in *.
  set (stop := (abs (xn - xi) <? tol)%float) in *.
  match type of Hrun with _ = Some (?s, _) => set (st' := s) in * end.
  assert (Fx : forall j, j <> i + 1 -> rd (x st') j = rd (x st) j)
    by (intros; subst st'; cbn; by rd_insert).
  assert (Fy : forall j, j <> i + 1 -> rd (y st') j = rd (y st) j)
    by (intros; subst st'; cbn; by rd_insert).
  assert (Fc : forall j, j <> i - 1 -> rd (c st') j = rd (c st) j)
    by (intros; subst st'; cbn; by rd_insert).
  assert (Fd : forall j, j <> i - 2 -> rd (d st') j = rd (d st) j)
    by (intros; subst st'; cbn; by rd_insert).
  assert (Hxn : rd (x st') (i + 1) = Some xn)
    by (subst st'; cbn; by rd_insert).
  assert (Hconv : converged_at tol st' i = Some stop).
  { unfold converged_at. rewrite Hxn, Fx, Hxi by lia. done. }
  clearbody stop.
  assert (Hstep : step_done pow st' i).
  { exists xi, xi1, xi2, yi, yi1, ci1, ci2, di2, xn.
    rewrite !Fx, !Fy, Hxn by lia. rewrite (Fc (i - 2)) by lia.
    subst st'; cbn. rd_insert. done. }
  assert (Hsteps : forall k, 2 <= k < i + 1 -> step_done pow st' k).
  { intros k Hk. destruct (decide (k = i)) as [-> | Hne]; [done |].
    apply (step_done_frame st); [| | | | apply inv_steps0; lia];
      intros; first [apply Fx | apply Fy | apply Fc | apply Fd]; lia. }
  assert (Hnc : forall k, 2 <= k < i -> converged_at tol st' k = Some false).
  { intros k Hk. rewrite (converged_at_frame tol st); [by apply inv_no_conv0 |].
    intros; apply Fx; lia. }
  assert (Hxz : forall j, i + 2 <= j <= usr_iters -> rd (x st') j = Some 0%float)
    by (intros; rewrite Fx by lia; apply inv_x_zero0; lia).
  assert (Hyz : forall j, i + 2 <= j <= usr_iters -> rd (y st') j = Some 0%float)
    by (intros; rewrite Fy by lia; apply inv_y_zero0; lia).
  assert (Hdz : forall j, i - 1 <= j <= usr_iters -> rd (d st') j = Some 0%float)
    by (intros; rewrite Fd by lia; apply inv_d_zero0; lia).
  assert (Hcz : forall j, i <= j <= usr_iters -> rd (c st') j = Some 0%float)
    by (intros; rewrite Fc by lia; apply inv_c_zero0; lia).
  exists st', stop. split; [exact Hrun |]. split; [exact Hconv |].
  split; intros Hstop.
  - constructor.
    + lia.
    + subst st'; cbn. by rewrite length_insert.
    + subst st'; cbn. by rewrite length_insert.
    + subst st'; cbn. by rewrite length_insert.
    + subst st'; cbn. by rewrite length_insert.
    + intros; apply Hxz; lia.
    + intros; apply Hyz; lia.
    + intros; apply Hdz; lia.
    + intros; apply Hcz; lia.
    + done.
    + intros k Hk. destruct (decide (k = i)) as [-> | Hne]; [congruence |].
      apply Hnc; lia.
    + subst st'; cbn. destruct (Z.eqb_spec (i + 1) 2); [lia |].
      f_equal; lia.
    + subst st'; cbn. by rewrite Hstop.
    + subst st'; cbn. by rewrite Hstop.
  - constructor.
    + lia.
    + subst st'; cbn. by rewrite length_insert.
    + subst st'; cbn. by rewrite length_insert.
    + subst st'; cbn. by rewrite length_insert.
    + subst st'; cbn. by rewrite length_insert.
    + done.
    + done.
    + done.
    + done.
    + intros; apply Hsteps; lia.
    + done.
    + done.
    + left. rewrite Hconv, Hstop. subst st'; cbn. rewrite Hstop, inv_out0.
      done.
Qed.

(** When the budget is exhausted the last step is [usr_iters - 1]. *)
Lemma loop_inv_exhausted tol usr_iters o st :
  2 < usr_iters ->
  loop_inv pow tol usr_iters o usr_iters st ->
  loop_post pow tol usr_iters o (usr_iters - 1) st.
Proof.
  intros HU []. destruct (Z.eqb_spec usr_iters 2); [lia |].
  constructor; auto.
  - lia.
  - intros; apply inv_x_zero0; lia.
  - intros; apply inv_y_zero0; lia.
  - intros; apply inv_d_zero0; lia.
  - intros; apply inv_steps0; lia.
  - intros; apply inv_no_conv0; lia.
  - right. split; [apply inv_no_conv0; lia | done].
Qed.

(** The loop runs to its end from any state that satisfies the invariant. *)
Lemma loop_run tol usr_iters o fuel :
  2 < usr_iters ->
  forall i st,
    loop_inv pow tol usr_iters o i st ->
    (Z.to_nat (usr_iters - i) <= fuel)%nat ->
    exists st' last,
      loop pow fuel tol usr_iters i st = Some st' /\
      loop_post pow tol usr_iters o last st'.
Proof.
  intros HU. induction fuel as [| fuel IH]; intros i st Inv Hfuel;
    pose proof (inv_range _ _ _ _ _ _ Inv) as Hi;
    cbn [loop]; destruct (Z.ltb_spec i usr_iters) as [Hlt | Hge].
  - lia.
  - assert (i = usr_iters) as -> by lia.
    exists st, (usr_iters - 1). split; [done | by apply loop_inv_exhausted].
  - destruct (body_inv tol usr_iters o i st Inv Hlt)
      as (st' & stop & Hbody & _ & Hcont & Hstop).
    rewrite Hbody. cbn. destruct stop.
    + exists st', i. split; [done | by apply Hstop].
    + apply IH; [by apply Hcont | lia].
  - assert (i = usr_iters) as -> by lia.
    exists st, (usr_iters - 1). split; [done | by apply loop_inv_exhausted].
Qed.

(** The reachable loop heads satisfy the invariant. *)
Lemma loop_head_inv tol usr_iters o st0 i st :
  loop_inv pow tol usr_iters o 2 st0 ->
  loop_head pow tol usr_iters st0 i st ->
  loop_inv pow tol usr_iters o i st.
Proof.
  intros Inv0. induction 1 as [| i st st' _ IH Hlt Hbody]; [done |].
  destruct (body_inv tol usr_iters o i st IH Hlt)
    as (st1 & stop & Hbody' & _ & Hcont & _).
  rewrite Hbody in Hbody'. simplify_eq. by apply Hcont.
Qed.

(** ** Zeroing and seeding *)

Lemma init_zero_run arr_size fuel :
  forall i st,
    0 <= i <= arr_size ->
    Z.of_nat (length (x st)) = arr_size -> Z.of_nat (length (y st)) = arr_size ->
    Z.of_nat (length (d st)) = arr_size -> Z.of_nat (length (c st)) = arr_size ->
    (Z.to_nat (arr_size - i) <= fuel)%nat ->
    exists st',
      init_zero fuel arr_size i st = Some st' /\
      Z.of_nat (length (x st')) = arr_size /\ Z.of_nat (length (y st')) = arr_size /\
      Z.of_nat (length (d st')) = arr_size /\ Z.of_nat (length (c st')) = arr_size /\
      iters st' = iters st /\ find_root st' = find_root st /\ out st' = out st /\
      (forall j, j < i ->
         rd (x st') j = rd (x st) j /\ rd (y st') j = rd (y st) j /\
         rd (d st') j = rd (d st) j /\ rd (c st') j = rd (c st) j) /\
      (forall j, i <= j < arr_size ->
         rd (x st') j = Some 0%float /\ rd (y st') j = Some 0%float /\
         rd (d st') j = Some 0%float /\ rd (c st') j = Some 0%float).
Proof.
  induction fuel as [| fuel IH]; intros i st Hi Lx Ly Ld Lc Hfuel;
    cbn [init_zero]; destruct (Z.ltb_spec i arr_size) as [Hlt | Hge].
  - lia.
  - exists st. repeat split; auto; intros; lia.
  - rewrite !wr_in_bounds by lia. cbn [mbind option_bind].
    match goal with |- context [init_zero fuel arr_size (i + 1) ?s] =>
      destruct (IH (i + 1) s)
        as (st' & Hrun & Lx' & Ly' & Ld' & Lc' & Hit & Hfr & Hout & Hlow & Hzero)
    end; cbn [x y d c]; rewrite ?length_insert; try lia.
    cbn [x y d c iters find_root out] in Hit, Hfr, Hout, Hlow.
    exists st'. split; [exact Hrun |]. repeat split; auto.
    1-4: destruct (Hlow j ltac:(lia)) as (E1 & E2 & E3 & E4);
      rewrite ?E1, ?E2, ?E3, ?E4; by rd_insert.
    all: destruct (decide (j = i)) as [-> | Hne];
      [ destruct (Hlow i ltac:(lia)) as (E1 & E2 & E3 & E4);
        rewrite ?E1, ?E2, ?E3, ?E4; by rd_insert
      | by apply Hzero; lia ].
  - exists st. repeat split; auto; intros; lia.
Qed.

Lemma seed_run x0 x1 st :
  3 <= Z.of_nat (length (x st)) -> 3 <= Z.of_nat (length (y st)) ->
  1 <= Z.of_nat (length (c st)) ->
  let x2 := ((x0 + x1) / 2)%float in
  seed pow x0 x1 st =
  Some {| x := <[2%nat := x2]> (<[1%nat := x1]> (<[0%nat := x0]> (x st)));
          y := <[2%nat := function pow x2]>
                 (<[1%nat := function pow x1]>
                    (<[0%nat := function pow x0]> (y st)));
          d := d st;
          c := <[0%nat := ((function pow x1 - function pow x0) / (x1 - x0))%float]> (c st);
          iters := iters st; find_root := find_root st; out := out st |}.
Proof.
  intros Lx Ly Lc x2. unfold seed.
  rewrite (wr_in_bounds (x st) 0) by lia. cbn [mbind option_bind].
  rewrite wr_in_bounds by (rewrite length_insert; lia). cbn [mbind option_bind].
  change (Z.to_nat 0) with 0%nat. change (Z.to_nat 1) with 1%nat.
  assert (R0 : forall a v w, (1 <= length a)%nat ->
            rd (<[1%nat := w]> (<[0%nat := v]> a)) 0 = Some v).
  { intros [| ? [| ? ?]] ? ? ?; cbn in *; done || lia. }
  assert (R1 : forall a v w, (2 <= length a)%nat ->
            rd (<[1%nat := w]> (<[0%nat := v]> a)) 1 = Some w).
  { intros [| ? [| ? ?]] ? ? ?; cbn in *; done || lia. }
  assert (R20 : forall a v w u, (3 <= length a)%nat ->
            rd (<[2%nat := u]> (<[1%nat := w]> (<[0%nat := v]> a))) 0 = Some v).
  { intros [| ? [| ? [| ? ?]]] ? ? ? ?; cbn in *; done || lia. }
  assert (R21 : forall a v w u, (3 <= length a)%nat ->
            rd (<[2%nat := u]> (<[1%nat := w]> (<[0%nat := v]> a))) 1 = Some w).
  { intros [| ? [| ? [| ? ?]]] ? ? ? ?; cbn in *; done || lia. }
  assert (R22 : forall a v w u, (3 <= length a)%nat ->
            rd (<[2%nat := u]> (<[1%nat := w]> (<[0%nat := v]> a))) 2 = Some u).
  { intros [| ? [| ? [| ? ?]]] ? ? ? ?; cbn in *; done || lia. }
  rewrite R0, R1 by lia. cbn [mbind option_bind].
  rewrite wr_in_bounds by (rewrite !length_insert; lia). cbn [mbind option_bind].
  change (Z.to_nat 2) with 2%nat. fold x2.
  rewrite R20 by lia. cbn [mbind option_bind].
  rewrite (wr_in_bounds (y st) 0) by lia. cbn [mbind option_bind].
  rewrite R21 by lia. cbn [mbind option_bind].
  rewrite wr_in_bounds by (rewrite length_insert; lia). cbn [mbind option_bind].
  rewrite R22 by lia. cbn [mbind option_bind].
  rewrite wr_in_bounds by (rewrite !length_insert; lia). cbn [mbind option_bind].
  change (Z.to_nat 0) with 0%nat. change (Z.to_nat 1) with 1%nat.
  change (Z.to_nat 2) with 2%nat.
  rewrite !R21, !R20 by lia. cbn [mbind option_bind].
  rewrite (wr_in_bounds (c st) 0) by lia. cbn [mbind option_bind].
  reflexivity.
Qed.

Lemma prepare_run inp ax ay ad ac o :
  validated inp -> sized inp ax ay ad ac ->
  exists st0,
    prepare pow inp ax ay ad ac o = Some st0 /\
    loop_inv pow (tolerance pow (in_n inp)) (in_iters inp) o 2 st0 /\
    rd (x st0) 0 = Some (in_x0 inp) /\
    rd (x st0) 1 = Some (in_x1 inp) /\
    rd (x st0) 2 = Some ((in_x0 inp + in_x1 inp) / 2)%float /\
    rd (y st0) 0 = Some (function pow (in_x0 inp)) /\
    rd (y st0) 1 = Some (function pow (in_x1 inp)) /\
    rd (y st0) 2 = Some (function pow ((in_x0 inp + in_x1 inp) / 2)%float) /\
    rd (c st0) 0 =
      Some ((function pow (in_x1 inp) - function pow (in_x0 inp))
            / (in_x1 inp - in_x0 inp))%float.
Proof.
  intros (_ & HU & _) (Lx & Ly & Ld & Lc). unfold prepare.
  edestruct (init_zero_run (in_iters inp + 1) (Z.to_nat (in_iters inp + 1)) 0)
    as (st1 & Hrun & Lx' & Ly' & Ld' & Lc' & Hit & Hfr & Hout & _ & Hzero);
    [| | | | | | rewrite Hrun]; cbn [x y d c]; try done; try lia.
  cbn [iters find_root out] in Hit, Hfr, Hout. cbn [mbind option_bind].
  rewrite seed_run by lia. eexists. split; [reflexivity |].
  assert (E0 : Z.to_nat 0 = 0%nat) by done.
  assert (E1 : Z.to_nat 1 = 1%nat) by done.
  assert (E2 : Z.to_nat 2 = 2%nat) by done.
  split; [constructor; cbn [x y d c iters find_root out] |
          cbn [x y d c]; rewrite <- E2, <- E1, <- E0].
  - lia.
  - by rewrite !length_insert.
  - by rewrite !length_insert.
  - done.
  - by rewrite length_insert.
  - intros j Hj. rewrite <- E2, <- E1, <- E0. rd_insert. apply Hzero; lia.
  - intros j Hj. rewrite <- E2, <- E1, <- E0. rd_insert. apply Hzero; lia.
  - intros j Hj. apply Hzero; lia.
  - intros j Hj. rewrite <- E0. rewrite rd_insert_ne by lia. apply Hzero; lia.
  - intros; lia.
  - intros; lia.
  - done.
  - done.
  - done.
  - assert (Hx0 := Hzero 0 ltac:(lia)).
    repeat split; by rd_insert.
Qed.

(** The solve is defined on every validated input and leaves a state that
    satisfies [loop_post]. *)
Lemma solve_run inp ax ay ad ac o :
  validated inp -> sized inp ax ay ad ac ->
  exists st last,
    solve pow inp ax ay ad ac o = Some st /\
    loop_post pow (tolerance pow (in_n inp)) (in_iters inp) o last st.
Proof.
  intros Hv Hs.
  destruct (prepare_run inp ax ay ad ac o Hv Hs) as (st0 & Hprep & Inv & _).
  unfold solve. rewrite Hprep. cbn [mbind option_bind].
  destruct Hv as (_ & HU & _).
  apply (loop_run _ _ o); [lia | done | lia].
Qed.

(** ** Reporting *)

Lemma report_run tol usr_iters o last st :
  loop_post pow tol usr_iters o last st ->
  report usr_iters st =
  Some (o ++ [Text (if find_root st then msg_converged else msg_exhausted);
              Newline]).
Proof.
  intros []. unfold report. rewrite post_iters0. cbn [mbind option_bind].
  destruct post_end0 as [(_ & -> & ->) | (_ & -> & -> & ->)]; cbn [negb].
  - by destruct (usr_iters - 1 <=? last).
  - destruct (Z.leb_spec (usr_iters - 1) (usr_iters - 1)); [done | lia].
Qed.

Lemma print_rows_run st last fuel :
  iters st = Some last ->
  last < Z.of_nat (length (x st)) -> last < Z.of_nat (length (y st)) ->
  last < Z.of_nat (length (d st)) -> last < Z.of_nat (length (c st)) ->
  forall i o,
    0 <= i <= last + 1 ->
    (Z.to_nat (last + 1 - i) <= fuel)%nat ->
    exists rows,
      print_rows fuel st i o = Some (o ++ rows) /\
      Z.of_nat (length rows) = last + 1 - i /\
      forallb is_row rows = true /\
      forall k, i <= k <= last ->
        exists xv yv dv cv,
          rd (x st) k = Some xv /\ rd (y st) k = Some yv /\
          rd (d st) k = Some dv /\ rd (c st) k = Some cv /\
          rows !! Z.to_nat (k - i) = Some (Row (k + 1) xv yv dv cv).
Proof.
  intros Hit Lx Ly Ld Lc.
  induction fuel as [| fuel IH]; intros i o Hi Hfuel;
    cbn [print_rows]; rewrite Hit; cbn [mbind option_bind];
    destruct (Z.leb_spec i last) as [Hle | Hgt].
  - lia.
  - exists []. rewrite app_nil_r. repeat split; [cbn; lia | intros; lia].
  - destruct (rd_in_bounds (x st) i) as [xv Hx]; [lia |].
    destruct (rd_in_bounds (y st) i) as [yv Hy]; [lia |].
    destruct (rd_in_bounds (d st) i) as [dv Hd]; [lia |].
    destruct (rd_in_bounds (c st) i) as [cv Hc]; [lia |].
    rewrite Hx, Hy, Hd, Hc. cbn [mbind option_bind].
    destruct (IH (i + 1) (o ++ [Row (i + 1) xv yv dv cv]))
      as (rows & Hrun & Hlen & Hrows & Hk); [lia | lia |].
    exists (Row (i + 1) xv yv dv cv :: rows).
    rewrite Hrun, <- app_assoc. split; [done |].
    split; [cbn [length]; lia |]. split; [done |].
    intros k Hk'. destruct (decide (k = i)) as [-> | Hne].
    + exists xv, yv, dv, cv. by rewrite Z.sub_diag.
    + destruct (Hk k) as (xv' & yv' & dv' & cv' & ? & ? & ? & ? & Hrow); [lia |].
      exists xv', yv', dv', cv'. repeat split; try done.
      replace (Z.to_nat (k - i)) with (S (Z.to_nat (k - (i + 1)))) by lia.
      done.
  - exists []. rewrite app_nil_r. repeat split; [cbn; lia | intros; lia].
Qed.

(** ** The whole program on an accepted input *)

Lemma main_run env inp :
  validated inp -> allocated env ->
  exists ax ay ad ac st last rows,
    sized inp ax ay ad ac /\
    solve pow inp ax ay ad ac prompts = Some st /\
    loop_post pow (tolerance pow (in_n inp)) (in_iters inp) prompts last st /\
    main pow env inp =
      Some {| status := EXIT_SUCCESS;
              stdout := prompts
                        ++ [Text (if find_root st then msg_converged
                                  else msg_exhausted); Newline; Newline]
                        ++ header ++ rows;
              heap_at_exit := {| next := 5; live := [] |} |} /\
    Z.of_nat (length rows) = last + 1 /\
    forallb is_row rows = true /\
    forall k, 0 <= k <= last ->
      exists xv yv dv cv,
        rd (x st) k = Some xv /\ rd (y st) k = Some yv /\
        rd (d st) k = Some dv /\ rd (c st) k = Some cv /\
        rows !! Z.to_nat k = Some (Row (k + 1) xv yv dv cv).
Proof.
  intros Hv ([gx Hgx] & [gy Hgy] & [gd Hgd] & [gc Hgc]).
  pose proof Hv as (Hne & HU & Hn).
  set (n := Z.to_nat ((in_iters inp + 1) * sizeof_double / sizeof_double)).
  assert (Hn' : Z.of_nat n = in_iters inp + 1).
  { subst n. unfold sizeof_double. rewrite Z.div_mul by done. lia. }
  assert (Hs : sized inp (gx <$> seq 0 n) (gy <$> seq 0 n)
                     (gd <$> seq 0 n) (gc <$> seq 0 n)).
  { unfold sized. by rewrite !length_fmap, !length_seq. }
  destruct (solve_run inp _ _ _ _ prompts Hv Hs) as (st & last & Hsolve & Post).
  pose proof (report_run _ _ _ _ _ Post) as Hrep.
  destruct (print_rows_run st last (Z.to_nat (last + 1)) (post_iters _ _ _ _ _ _ Post))
    with (i := 0) (o := ((prompts ++ [Text (if find_root st then msg_converged
                                            else msg_exhausted); Newline])
                         ++ [Newline]) ++ header)
    as (rows & Hrows & Hlen & Hallrows & Hk);
    try (destruct Post; lia).
  exists (gx <$> seq 0 n), (gy <$> seq 0 n), (gd <$> seq 0 n), (gc <$> seq 0 n),
    st, last, rows.
  split; [done |]. split; [done |]. split; [done |].
  split; [| split; [lia | split; [done |]]].
  - unfold main. rewrite Hne.
    destruct (Z.leb_spec (in_iters inp) 2); [lia |].
    destruct (Z.ltb_spec MAX_ITERATIONS (in_iters inp)); [lia |].
    destruct (Z.leb_spec (in_n inp) 0); [lia |].
    destruct (Z.ltb_spec MAX_TOLERANCES (in_n inp)); [lia |].
    cbn [orb]. rewrite Hgx, Hgy, Hgd, Hgc. cbn [malloc cells].
    fold n. change ((((_ ++ _) ++ _) ++ _) ++ [Newline]) with prompts.
    rewrite Hsolve. cbn [mbind option_bind]. rewrite Hrep.
    cbn [mbind option_bind]. rewrite (post_iters _ _ _ _ _ _ Post).
    cbn [mbind option_bind]. rewrite Hrows.
    cbn [mbind option_bind]. cbn. done.
  - intros k Hk'. destruct (Hk k) as (xv & yv & dv & cv & H); [lia |].
    exists xv, yv, dv, cv. by rewrite Z.sub_0_r in H.
Qed.

(** ** The claims about the solve *)

(** C2: on every accepted input the arrays are prepared without fault, the
    loop is entered at [i = 2] with [tol = 0.5 * pow (10, -n)], and at that
    moment [x[0]] and [x[1]] are the user's points, [x[2]] is
    [(x[0] + x[1]) / 2], [y[0]], [y[1]], [y[2]] are the values of
    [function] at these points, and [c[0]] is
    [(y[1] - y[0]) / (x[1] - x[0])]; no pass has run yet. *)
Theorem seeding inp ax ay ad ac o :
  validated inp -> sized inp ax ay ad ac ->
  exists st0 x0 x1 x2 y0 y1 y2,
    prepare pow inp ax ay ad ac o = Some st0 /\
    solve pow inp ax ay ad ac o =
      loop pow (Z.to_nat (in_iters inp))
           (0.5 * pow 10 (double_of_int (- in_n inp)))%float
           (in_iters inp) 2 st0 /\
    iters st0 = None /\ find_root st0 = false /\
    rd (x st0) 0 = Some x0 /\ rd (x st0) 1 = Some x1 /\
    rd (x st0) 2 = Some x2 /\
    rd (y st0) 0 = Some y0 /\ rd (y st0) 1 = Some y1 /\
    rd (y st0) 2 = Some y2 /\
    x0 = in_x0 inp /\ x1 = in_x1 inp /\ x2 = ((x0 + x1) / 2)%float /\
    y0 = (pow x0 6 - 2)%float /\ y1 = (pow x1 6 - 2)%float /\
    y2 = (pow x2 6 - 2)%float /\
    rd (c st0) 0 = Some ((y1 - y0) / (x1 - x0))%float.
Proof.
  intros Hv Hs.
  destruct (prepare_run inp ax ay ad ac o Hv Hs)
    as (st0 & Hprep & Inv & Hx0 & Hx1 & Hx2 & Hy0 & Hy1 & Hy2 & Hc0).
  exists st0, (in_x0 inp), (in_x1 inp), ((in_x0 inp + in_x1 inp) / 2)%float,
    (function pow (in_x0 inp)), (function pow (in_x1 inp)),
    (function pow ((in_x0 inp + in_x1 inp) / 2)%float).
  split; [done |]. split.
  { unfold solve. by rewrite Hprep. }
  pose proof (inv_iters _ _ _ _ _ _ Inv) as Hit. cbn in Hit.
  pose proof (inv_find_root _ _ _ _ _ _ Inv).
  repeat split; done.
Qed.

(** The state the solve returns was left by a pass of the loop body on a
    reachable loop head, and that pass either broke out of the loop or was
    the last one the budget allows. *)
Lemma loop_ends_after_pass tol usr_iters o st0 fuel :
  loop_inv pow tol usr_iters o 2 st0 ->
  forall i st st',
    loop_head pow tol usr_iters st0 i st -> i < usr_iters ->
    loop pow fuel tol usr_iters i st = Some st' ->
    exists j stj stop,
      loop_head pow tol usr_iters st0 j stj /\ i <= j < usr_iters /\
      body pow tol j stj = Some (st', stop) /\
      (stop = true \/ j = usr_iters - 1).
Proof.
  intros Inv0. induction fuel as [| fuel IH]; intros i st st' Hhead Hlt;
    cbn [loop]; destruct (Z.ltb_spec i usr_iters); try lia; [done |].
  destruct (body pow tol i st) as [[st1 stop] |] eqn:Hbody; [| done].
  cbn. destruct stop.
  - intros [= <-]. exists i, st, true. auto with lia.
  - intros Hloop. destruct (decide (i + 1 < usr_iters)) as [Hlt' | Hge].
    + destruct (IH (i + 1) st1 st') as (j & stj & stop & ? & ? & ? & ?);
        [by eapply head_next | done | done |].
      exists j, stj, stop. auto with lia.
    + destruct fuel; cbn [loop] in Hloop;
        destruct (Z.ltb_spec (i + 1) usr_iters); try lia;
        injection Hloop as <-; exists i, st, false; auto with lia.
Qed.

(** Every step below a reachable loop head is a reachable loop head. *)
Lemma loop_head_below tol usr_iters st0 j stj :
  loop_head pow tol usr_iters st0 j stj ->
  forall i, 2 <= i <= j -> exists sti, loop_head pow tol usr_iters st0 i sti.
Proof.
  induction 1 as [| j stj stj' Hhead IH Hlt Hbody]; intros i Hi.
  - assert (i = 2) as -> by lia. exists st0. constructor.
  - destruct (decide (i = j + 1)) as [-> | Hne].
    + exists stj'. by eapply head_next.
    + apply IH. lia.
Qed.

(** C1: on every accepted input, every pass [i] of the solve loop (every
    [i] with [2 <= i < usr_iters] that the loop reaches) is defined and
    computes [c[i-1]], [d[i-2]], [s], [x[i+1]] and [y[i+1]] by the stated
    formulas.  The discriminant is taken with the value [di] read from slot
    [d[i]] of the history, which the pass leaves untouched and which still
    holds its zero initialisation, while the freshly computed value goes to
    slot [d[i-2]].  The state the solve returns is the one left by the last
    such pass, the passes that ran are those with [2 <= i <= last], and the
    history it holds satisfies the equations of each of them. *)
Theorem muller_step inp ax ay ad ac o :
  validated inp -> sized inp ax ay ad ac ->
  let tol := tolerance pow (in_n inp) in
  let usr_iters := in_iters inp in
  exists st0,
    prepare pow inp ax ay ad ac o = Some st0 /\
    (forall i st,
       loop_head pow tol usr_iters st0 i st -> i < usr_iters ->
       2 <= i /\
       exists xi xi1 xi2 yi yi1 ci2 di st' stop,
         rd (x st) i = Some xi /\ rd (x st) (i - 1) = Some xi1 /\
         rd (x st) (i - 2) = Some xi2 /\
         rd (y st) i = Some yi /\ rd (y st) (i - 1) = Some yi1 /\
         rd (c st) (i - 2) = Some ci2 /\
         rd (d st) i = Some di /\ di = 0%float /\
         body pow tol i st = Some (st', stop) /\
         let ci1 := ((yi - yi1) / (xi - xi1))%float in
         let di2 := ((ci1 - ci2) / (xi - xi2))%float in
         let s := (ci1 + (xi - xi1) * di2)%float in
         let xn := (xi - 2 * yi / (s + double_of_int (sign s)
                                       * sqrt (abs (pow s 2 - 4 * yi * di))))%float in
         rd (c st') (i - 1) = Some ci1 /\
         rd (d st') (i - 2) = Some di2 /\
         rd (d st') i = Some di /\
         rd (x st') (i + 1) = Some xn /\
         rd (y st') (i + 1) = Some (pow xn 6 - 2)%float /\
         iters st' = Some i) /\
    exists st last stl stop,
      solve pow inp ax ay ad ac o = Some st /\
      iters st = Some last /\
      loop_head pow tol usr_iters st0 last stl /\ last < usr_iters /\
      body pow tol last stl = Some (st, stop) /\
      (forall i, 2 <= i <= last ->
         exists sti, loop_head pow tol usr_iters st0 i sti) /\
      (forall i, 2 <= i <= last -> step_done pow st i).
Proof.
  intros Hv Hs tol usr_iters.
  destruct (prepare_run inp ax ay ad ac o Hv Hs) as (st0 & Hprep & Inv0 & _).
  fold tol usr_iters in Inv0.
  exists st0. split; [done |]. split.
  - intros i st Hhead Hlt.
    pose proof (loop_head_inv _ _ _ _ _ _ Inv0 Hhead) as Inv.
    destruct Inv.
    destruct (rd_in_bounds (x st) i) as [xi Hxi]; [lia |].
    destruct (rd_in_bounds (x st) (i - 1)) as [xi1 Hxi1]; [lia |].
    destruct (rd_in_bounds (x st) (i - 2)) as [xi2 Hxi2]; [lia |].
    destruct (rd_in_bounds (y st) i) as [yi Hyi]; [lia |].
    destruct (rd_in_bounds (y st) (i - 1)) as [yi1 Hyi1]; [lia |].
    destruct (rd_in_bounds (c st) (i - 2)) as [ci2 Hci2]; [lia |].
    pose proof (inv_d_zero0 i ltac:(lia)) as Hdi.
    pose proof (body_run tol i st xi xi1 xi2 yi yi1 ci2 0%float
                  ltac:(lia) ltac:(lia) ltac:(lia) ltac:(lia) ltac:(lia)
                  Hxi Hxi1 Hxi2 Hyi Hyi1 Hci2 Hdi) as Hrun.
    cbv zeta in Hrun. split; [lia |].
    eexists xi, xi1, xi2, yi, yi1, ci2, 0%float, _, _.
    do 8 (split; [done |]). split; [exact Hrun |].
    cbv zeta. cbn [x y d c iters]. unfold next_x, function.
    repeat split; by rd_insert.
  - destruct Hv as (_ & HU & _).
    destruct (loop_run tol usr_iters o (Z.to_nat usr_iters) ltac:(lia) 2 st0 Inv0)
      as (st & last & Hloop & Post); [lia |].
    destruct (loop_ends_after_pass tol usr_iters o st0 (Z.to_nat usr_iters) Inv0 2 st0 st)
      as (j & stj & stop & Hhead & Hj & Hbody & _);
      [constructor | lia | done |].
    pose proof (loop_head_inv _ _ _ _ _ _ Inv0 Hhead) as Invj.
    destruct (body_inv tol usr_iters o j stj Invj ltac:(lia))
      as (st' & stop' & Hbody' & _ & Hcont & Hstop).
    rewrite Hbody in Hbody'. injection Hbody' as <- <-.
    exists st, j, stj, stop. unfold solve. rewrite Hprep. cbn [mbind option_bind].
    fold tol usr_iters. split; [done |].
    assert (Hit : iters st = Some j).
    { destruct stop.
      - apply Hstop. done.
      - rewrite (inv_iters _ _ _ _ _ _ (Hcont eq_refl)).
        destruct (Z.eqb_spec (j + 1) 2); [lia | f_equal; lia]. }
    assert (last = j) as ->
      by (pose proof (post_iters _ _ _ _ _ _ Post); congruence).
    do 4 (split; [done || lia |]).
    split; [by apply (loop_head_below _ _ _ _ _ Hhead) |].
    exact (post_steps _ _ _ _ _ _ Post).
Qed.

(** ** The claims about the report and the table *)

(** C4, amended: a run on an accepted input whose four allocations succeed
    writes exactly one of the two outcome messages.  The convergence
    message is written exactly when some pass
    [i] that ran satisfies [|x[i+1] - x[i]| < tol]; that pass is then the
    last one, and the slots above [last + 1] keep their zero initialisation.
    The other message is written exactly when the last pass is at least
    [usr_iters - 1] and [find_root] is still false. *)
Theorem outcome_message env inp :
  validated inp -> allocated env ->
  let tol := tolerance pow (in_n inp) in
  let usr_iters := in_iters inp in
  exists ax ay ad ac st last r,
    sized inp ax ay ad ac /\
    solve pow inp ax ay ad ac prompts = Some st /\
    iters st = Some last /\ 2 <= last < usr_iters /\
    main pow env inp = Some r /\
    (count_text msg_converged (stdout r)
     + count_text msg_exhausted (stdout r) = 1)%nat /\
    (count_text msg_converged (stdout r) = 1%nat <->
     exists i, 2 <= i <= last /\ converged_at tol st i = Some true) /\
    (forall i, 2 <= i <= last -> converged_at tol st i = Some true -> i = last) /\
    (forall j, last + 2 <= j <= usr_iters ->
       rd (x st) j = Some 0%float /\ rd (y st) j = Some 0%float) /\
    (count_text msg_exhausted (stdout r) = 1%nat <->
     usr_iters - 1 <= last /\ find_root st = false) /\
    (count_text msg_converged (stdout r) = 1%nat <-> find_root st = true).
Proof.
  intros Hv Ha tol usr_iters. subst tol usr_iters.
  destruct (main_run env inp Hv Ha)
    as (ax & ay & ad & ac & st & last & rows & Hs & Hsolve & Post & Hmain
        & Hlen & Hrows & Hk).
  destruct Post.
  eexists ax, ay, ad, ac, st, last, _.
  do 4 (split; [done |]). split; [exact Hmain |]. cbn [stdout].
  rewrite !count_text_app, !(count_text_rows _ rows Hrows).
  assert (Hnot : forall i, 2 <= i <= last ->
            converged_at (tolerance pow (in_n inp)) st i = Some true -> i = last).
  { intros i Hi Hc. destruct (decide (i = last)); [done |].
    pose proof (post_no_conv0 i ltac:(lia)). congruence. }
  destruct post_end0 as [(Hc & Hfr & _) | (Hc & Hl & Hfr & _)]; rewrite Hfr;
    cbn -[tolerance converged_at].
  - split; [done |]. split; [split; [exists last; auto with lia | done] |].
    split; [done |]. split; [auto |]. split; [| done].
    split; [done | intros []; done].
  - split; [done |]. split.
    { split; [done |]. intros (i & Hi & Hci).
      rewrite <- (Hnot i Hi Hci), Hci in Hc. done. }
    split; [done |]. split; [auto |]. split; [| done].
    split; [lia | done].
Qed.

(** C5: the table has [last + 1] rows, [last] being the last pass that ran.
    That number equals the requested iteration count exactly when the method
    converged in the last pass the budget allows or never converged, and it
    stays below the capacity [usr_iters + 1] of the arrays.  Row [k] carries
    the step number [k + 1] and [x[k]], [y[k]], [d[k]], [c[k]]. *)
Theorem table_rows env inp :
  validated inp -> allocated env ->
  let usr_iters := in_iters inp in
  exists ax ay ad ac st last r front rows,
    sized inp ax ay ad ac /\
    solve pow inp ax ay ad ac prompts = Some st /\
    iters st = Some last /\
    main pow env inp = Some r /\
    stdout r = front ++ rows /\
    List.filter is_row (stdout r) = rows /\
    Z.of_nat (length rows) = last + 1 /\
    (Z.of_nat (length rows) = usr_iters <->
     (find_root st = true /\ last = usr_iters - 1) \/ find_root st = false) /\
    Z.of_nat (length rows) < usr_iters + 1 /\
    forall k, 0 <= k <= last ->
      exists xv yv dv cv,
        rd (x st) k = Some xv /\ rd (y st) k = Some yv /\
        rd (d st) k = Some dv /\ rd (c st) k = Some cv /\
        rows !! Z.to_nat k = Some (Row (k + 1) xv yv dv cv).
Proof.
  intros Hv Ha usr_iters. subst usr_iters.
  destruct (main_run env inp Hv Ha)
    as (ax & ay & ad & ac & st & last & rows & Hs & Hsolve & Post & Hmain
        & Hlen & Hrows & Hk).
  destruct Post.
  eexists ax, ay, ad, ac, st, last, _, _, rows.
  do 3 (split; [done |]). split; [exact Hmain |]. cbn [stdout].
  split; [by rewrite !app_assoc |]. split.
  { rewrite !List.filter_app, (filter_rows_only rows Hrows). done. }
  split; [done |]. split; [| split; [lia | done]].
  rewrite Hlen.
  destruct post_end0 as [(_ & Hfr & _) | (_ & Hl & Hfr & _)]; rewrite Hfr.
  - split; [left; split; [done | lia] | intros [[_ ?] | ?]; [lia | done]].
  - split; [auto | lia].
Qed.

(** C7, amended: a run on an accepted input whose four allocations succeed
    ends with [EXIT_SUCCESS] whatever the doubles it meets: no pass faults,
    every cell of the history up to the
    last pass is written to the table as it is stored, and the loop stops
    before its budget is spent only on the test of line 215, which holds
    only between two finite approximations. *)
Theorem anomalies_are_not_errors env inp :
  validated inp -> allocated env ->
  let tol := tolerance pow (in_n inp) in
  let usr_iters := in_iters inp in
  exists ax ay ad ac st last r,
    sized inp ax ay ad ac /\
    solve pow inp ax ay ad ac prompts = Some st /\
    iters st = Some last /\
    main pow env inp = Some r /\
    status r = EXIT_SUCCESS /\
    (forall k, 0 <= k <= last ->
       exists xv yv dv cv,
         rd (x st) k = Some xv /\ rd (y st) k = Some yv /\
         rd (d st) k = Some dv /\ rd (c st) k = Some cv /\
         Row (k + 1) xv yv dv cv ∈ stdout r) /\
    (last < usr_iters - 1 ->
     exists xn xl,
       rd (x st) (last + 1) = Some xn /\ rd (x st) last = Some xl /\
       (abs (xn - xl) <? tol)%float = true /\
       (abs xn <? infinity)%float = true /\
       (abs xl <? infinity)%float = true) /\
    (find_root st = false -> last = usr_iters - 1).
Proof.
  intros Hv Ha tol usr_iters. subst tol usr_iters.
  destruct (main_run env inp Hv Ha)
    as (ax & ay & ad & ac & st & last & rows & Hs & Hsolve & Post & Hmain
        & Hlen & Hrows & Hk).
  destruct Post.
  eexists ax, ay, ad, ac, st, last, _.
  do 3 (split; [done |]). split; [exact Hmain |]. cbn [status stdout].
  split; [done |]. split; [| split].
  - intros k Hk'. destruct (Hk k Hk') as (xv & yv & dv & cv & ? & ? & ? & ? & Hrow).
    exists xv, yv, dv, cv. do 4 (split; [done |]).
    rewrite !elem_of_app. do 3 right. by eapply list_elem_of_lookup_2.
  - intros Hearly.
    destruct post_end0 as [(Hc & _) | (_ & Hl & _)]; [| lia].
    unfold converged_at in Hc.
    destruct (rd (x st) (last + 1)) as [xn |]; [| done].
    destruct (rd (x st) last) as [xl |]; [| done].
    cbn in Hc. injection Hc as Hc.
    exists xn, xl. destruct (close_is_finite xn xl _ Hc). done.
  - intros Hfr. destruct post_end0 as [(_ & Hfr' & _) | (_ & Hl & _)];
      [congruence | done].
Qed.

(** C9: on an accepted input the first pass of the solve loop runs, with
    [i = 2], and assigns [iters]; [iters] holds a step number when the loop
    is left, the test of line 225 reads an assigned variable, and the
    program ends without fault. *)
Theorem iters_assigned_before_read env inp :
  validated inp -> allocated env ->
  let tol := tolerance pow (in_n inp) in
  let usr_iters := in_iters inp in
  exists ax ay ad ac st0 st1 stop st last r,
    sized inp ax ay ad ac /\
    prepare pow inp ax ay ad ac prompts = Some st0 /\
    iters st0 = None /\
    2 < usr_iters /\
    body pow tol 2 st0 = Some (st1, stop) /\
    iters st1 = Some 2 /\
    solve pow inp ax ay ad ac prompts = Some st /\
    iters st = Some last /\ 2 <= last /\
    is_Some (report usr_iters st) /\
    main pow env inp = Some r.
Proof.
  intros Hv Ha tol usr_iters. subst tol usr_iters.
  destruct (main_run env inp Hv Ha)
    as (ax & ay & ad & ac & st & last & rows & Hs & Hsolve & Post & Hmain & _).
  destruct (prepare_run inp ax ay ad ac prompts Hv Hs) as (st0 & Hprep & Inv0 & _).
  destruct Hv as (_ & HU & _).
  destruct (body_inv _ _ prompts 2 st0 Inv0 ltac:(lia))
    as (st1 & stop & Hbody & _ & Hcont & Hstop).
  eexists ax, ay, ad, ac, st0, st1, stop, st, last, _.
  split; [done |]. split; [done |].
  split; [exact (inv_iters _ _ _ _ _ _ Inv0) |].
  split; [lia |]. split; [done |]. split.
  { destruct stop.
    - exact (post_iters _ _ _ _ _ _ (Hstop eq_refl)).
    - exact (inv_iters _ _ _ _ _ _ (Hcont eq_refl)). }
  split; [done |]. split; [exact (post_iters _ _ _ _ _ _ Post) |].
  split; [pose proof (post_range _ _ _ _ _ _ Post); lia |].
  split; [| exact Hmain].
  rewrite (report_run _ _ _ _ _ Post). eauto.
Qed.

(** Reading [iters] unassigned is flagged by the model: the test of line
    225 on a state in which no pass has run is undefined. *)
Lemma report_unassigned usr_iters st :
  iters st = None -> report usr_iters st = None.
Proof. intros H. unfold report. by rewrite H. Qed.

(** C10: the last pass writes the newest approximation to [x[last+1]] and
    its value to [y[last+1]], but the table consists of the rows of the
    indices [0 .. last], so slot [last + 1] is not shown; the last row shows
    zero in its [d] and [c] columns, because [d[last]], [d[last-1]] and
    [c[last]] still hold their zero initialisation. *)
Theorem newest_approximation_not_printed env inp :
  validated inp -> allocated env ->
  exists ax ay ad ac st last r rows,
    sized inp ax ay ad ac /\
    solve pow inp ax ay ad ac prompts = Some st /\
    iters st = Some last /\ 2 <= last /\
    main pow env inp = Some r /\
    List.filter is_row (stdout r) = rows /\
    (exists xl xl1 xl2 yl yl1 cl1 cl2 dl2 xn,
       rd (x st) last = Some xl /\ rd (x st) (last - 1) = Some xl1 /\
       rd (x st) (last - 2) = Some xl2 /\
       rd (y st) last = Some yl /\ rd (y st) (last - 1) = Some yl1 /\
       rd (c st) (last - 1) = Some cl1 /\ rd (c st) (last - 2) = Some cl2 /\
       rd (d st) (last - 2) = Some dl2 /\
       cl1 = ((yl - yl1) / (xl - xl1))%float /\
       dl2 = ((cl1 - cl2) / (xl - xl2))%float /\
       let s := (cl1 + (xl - xl1) * dl2)%float in
       xn = (xl - 2 * yl / (s + double_of_int (sign s)
                                * sqrt (abs (pow s 2 - 4 * yl * 0))))%float /\
       rd (x st) (last + 1) = Some xn /\
       rd (y st) (last + 1) = Some (pow xn 6 - 2)%float /\
       rows !! Z.to_nat last = Some (Row (last + 1) xl yl 0 0)) /\
    Z.of_nat (length rows) = last + 1 /\
    (forall (n : nat) e, rows !! n = Some e ->
       exists xv yv dv cv,
         Z.of_nat n <= last /\
         rd (x st) (Z.of_nat n) = Some xv /\ rd (y st) (Z.of_nat n) = Some yv /\
         e = Row (Z.of_nat n + 1) xv yv dv cv) /\
    rd (d st) last = Some 0%float /\
    rd (d st) (last - 1) = Some 0%float /\
    rd (c st) last = Some 0%float.
Proof.
  intros Hv Ha.
  destruct (main_run env inp Hv Ha)
    as (ax & ay & ad & ac & st & last & rows & Hs & Hsolve & Post & Hmain
        & Hlen & Hrows & Hk).
  destruct Post.
  pose proof (post_d_zero0 last ltac:(lia)) as Hdl.
  pose proof (post_d_zero0 (last - 1) ltac:(lia)) as Hdl1.
  pose proof (post_c_zero0 last ltac:(lia)) as Hcl.
  eexists ax, ay, ad, ac, st, last, _, rows.
  do 3 (split; [done |]). split; [lia |]. split; [exact Hmain |]. cbn [stdout].
  split.
  { rewrite !List.filter_app, (filter_rows_only rows Hrows). done. }
  split; [| split; [done | split; [| done]]].
  - destruct (post_steps0 last ltac:(lia))
      as (xl & xl1 & xl2 & yl & yl1 & cl1 & cl2 & dl2 & xn
          & Hxl & ? & ? & Hyl & ? & ? & ? & ? & ? & ? & ? & Hxn & ?).
    exists xl, xl1, xl2, yl, yl1, cl1, cl2, dl2, xn.
    do 10 (split; [done |]). cbv zeta. split; [exact Hxn |].
    split; [done |]. split; [done |].
    destruct (Hk last ltac:(lia)) as (xv & yv & dv & cv & ? & ? & ? & ? & Hrow).
    rewrite Hrow. repeat f_equal; congruence.
  - intros n e Hn.
    assert (Z.of_nat n <= last) by (apply lookup_lt_Some in Hn; lia).
    destruct (Hk (Z.of_nat n) ltac:(lia))
      as (xv & yv & dv & cv & ? & ? & ? & ? & Hrow).
    rewrite Nat2Z.id, Hn in Hrow. injection Hrow as ->.
    exists xv, yv, dv, cv. done.
Qed.

(** ** The claims about the exits *)

Lemma not_allocated_inv env :
  ~ allocated env ->
  m_x env = None \/ m_y env = None \/ m_d env = None \/ m_c env = None.
Proof.
  unfold allocated. intros Hn.
  destruct (m_x env); [| auto]. destruct (m_y env); [| auto].
  destruct (m_d env); [| auto]. destruct (m_c env); [| auto].
  destruct Hn. eauto.
Qed.

(** What the program does when an allocation fails on an accepted input. *)
Lemma main_allocation_failure env inp :
  validated inp -> ~ allocated env ->
  exists h,
    main pow env inp =
    Some {| status := EXIT_FAILURE;
            stdout := prompts
                      ++ [Text "Dynamic memory allocation problem (";
                          Int ((in_iters inp + 1) * sizeof_double);
                          Text " bytes)."; Newline];
            heap_at_exit := h |}.
Proof.
  intros (Hne & HU & Hn) Hna. unfold main. rewrite Hne.
  destruct (Z.leb_spec (in_iters inp) 2); [lia |].
  destruct (Z.ltb_spec MAX_ITERATIONS (in_iters inp)); [lia |].
  destruct (Z.leb_spec (in_n inp) 0); [lia |].
  destruct (Z.ltb_spec MAX_TOLERANCES (in_n inp)); [lia |].
  cbn [orb].
  destruct (not_allocated_inv env Hna) as [E | [E | [E | E]]];
    destruct (m_x env), (m_y env), (m_d env), (m_c env);
    try discriminate E; cbn [malloc]; eexists; reflexivity.
Qed.

(** Every exit that follows the solve has released the four blocks. *)
Lemma main_releases_after_solve env inp :
  validated inp -> allocated env ->
  exists r, main pow env inp = Some r /\ live (heap_at_exit r) = [].
Proof.
  intros Hv Ha.
  destruct (main_run env inp Hv Ha)
    as (ax & ay & ad & ac & st & last & rows & _ & _ & _ & Hmain & _).
  eexists. split; [exact Hmain | done].
Qed.

(** The exit of line 167 releases nothing: when the first allocation
    succeeds and a later one fails, a block is live at exit. *)
Lemma main_leaks_first_block env inp :
  validated inp -> is_Some (m_x env) -> ~ allocated env ->
  exists r,
    main pow env inp = Some r /\ status r = EXIT_FAILURE /\
    (1%nat, (in_iters inp + 1) * sizeof_double) ∈ live (heap_at_exit r).
Proof.
  intros (Hne & HU & Hn) [gx Hgx] Hna. unfold main. rewrite Hne.
  destruct (Z.leb_spec (in_iters inp) 2); [lia |].
  destruct (Z.ltb_spec MAX_ITERATIONS (in_iters inp)); [lia |].
  destruct (Z.leb_spec (in_n inp) 0); [lia |].
  destruct (Z.ltb_spec MAX_TOLERANCES (in_n inp)); [lia |].
  cbn [orb]. rewrite Hgx.
  destruct (not_allocated_inv env Hna) as [E | [E | [E | E]]];
    [congruence | | |];
    destruct (m_y env), (m_d env), (m_c env);
    try discriminate E; cbn [malloc]; eexists;
    (split; [reflexivity |]); (split; [reflexivity |]);
    cbn; apply list_elem_of_here.
Qed.

Ltac exits_settle :=
  unfold violation, validated, MAX_ITERATIONS, MAX_TOLERANCES,
    EXIT_FAILURE, EXIT_SUCCESS, sizeof_double in *;
  repeat split; intros;
  repeat match goal with
         | H : _ /\ _ |- _ => destruct H
         | H : _ \/ _ |- _ => destruct H
         end;
  first [ done | congruence | lia | tauto | (left; done) | (right; done)
        | (left; left; done) | (left; right; left; lia)
        | (left; right; right; lia) ].

(** C3, amended: the program ends with [EXIT_FAILURE], a nonzero status,
    before the solve exactly when one of the three checks fails or, all three
    passing, one of the four allocations fails.  The checks are made in the
    order edge points, iteration count, tolerance digits, each before the
    next prompt, and each failure writes its own message; the accepted
    iteration counts are 3 .. 1000000 and the accepted tolerance digits
    1 .. 40. *)
Theorem failure_exits env inp :
  let asked := [Text "Muller's root-finding arithmetic method."; Newline;
                Newline; Text "Input point x0: "; Text "Input point x1: "] in
  exists r,
    main pow env inp = Some r /\
    (status r = EXIT_FAILURE \/ status r = EXIT_SUCCESS) /\
    EXIT_FAILURE <> 0 /\ EXIT_SUCCESS = 0 /\
    (status r = EXIT_FAILURE <-> violation inp \/ ~ allocated env) /\
    ((in_x0 inp =? in_x1 inp)%float = true ->
     r = {| status := EXIT_FAILURE;
            stdout := asked ++ [Newline;
                                Text "Values x0, x1 should be different.";
                                Newline];
            heap_at_exit := empty_heap |}) /\
    ((in_x0 inp =? in_x1 inp)%float = false ->
     ~ (2 < in_iters inp <= 1000000) ->
     r = {| status := EXIT_FAILURE;
            stdout := asked ++ [Text "Iterations: "; Newline;
                                Text "Iterations value: 2<i<="; Int 1000000;
                                Newline];
            heap_at_exit := empty_heap |}) /\
    ((in_x0 inp =? in_x1 inp)%float = false ->
     2 < in_iters inp <= 1000000 ->
     ~ (0 < in_n inp <= 40) ->
     r = {| status := EXIT_FAILURE;
            stdout := asked ++ [Text "Iterations: "; Text "Tolerance: "; Newline;
                                Text "Tolerance value: 0<t<="; Int 40; Newline];
            heap_at_exit := empty_heap |}) /\
    (validated inp -> ~ allocated env ->
     status r = EXIT_FAILURE /\
     stdout r = asked ++ [Text "Iterations: "; Text "Tolerance: "; Newline;
                          Text "Dynamic memory allocation problem (";
                          Int ((in_iters inp + 1) * 8); Text " bytes).";
                          Newline]) /\
    (allocated env ->
     (status r = EXIT_SUCCESS <->
      (in_x0 inp =? in_x1 inp)%float = false /\
      3 <= in_iters inp <= 1000000 /\ 1 <= in_n inp <= 40)).
Proof.
  intros asked.
  destruct (in_x0 inp =? in_x1 inp)%float eqn:Hne.
  { eexists. split; [unfold main; rewrite Hne; reflexivity |]. cbn [status].
    exits_settle. }
  destruct (decide (2 < in_iters inp <= 1000000)) as [HU | HU]; cycle 1.
  { assert (Hmain : main pow env inp =
      Some {| status := EXIT_FAILURE;
              stdout := asked ++ [Text "Iterations: "; Newline;
                                  Text "Iterations value: 2<i<="; Int 1000000;
                                  Newline];
              heap_at_exit := empty_heap |}).
    { unfold main. rewrite Hne. unfold MAX_ITERATIONS.
      destruct (Z.leb_spec (in_iters inp) 2);
        destruct (Z.ltb_spec 1000000 (in_iters inp)); try lia; reflexivity. }
    eexists. split; [exact Hmain |]. cbn [status].
    exits_settle. }
  destruct (decide (0 < in_n inp <= 40)) as [Hn | Hn]; cycle 1.
  { assert (Hmain : main pow env inp =
      Some {| status := EXIT_FAILURE;
              stdout := asked ++ [Text "Iterations: "; Text "Tolerance: "; Newline;
                                  Text "Tolerance value: 0<t<="; Int 40; Newline];
              heap_at_exit := empty_heap |}).
    { unfold main. rewrite Hne. unfold MAX_ITERATIONS, MAX_TOLERANCES.
      destruct (Z.leb_spec (in_iters inp) 2);
        destruct (Z.ltb_spec 1000000 (in_iters inp)); try lia.
      destruct (Z.leb_spec (in_n inp) 0);
        destruct (Z.ltb_spec 40 (in_n inp)); try lia; reflexivity. }
    eexists. split; [exact Hmain |]. cbn [status].
    exits_settle. }
  assert (Hv : validated inp) by done.
  destruct (decide (allocated env)) as [Ha | Ha].
  - destruct (main_run env inp Hv Ha)
      as (ax & ay & ad & ac & st & last & rows & _ & _ & _ & Hmain & _).
    eexists. split; [exact Hmain |]. cbn [status].
    clear Hmain. exits_settle.
  - destruct (main_allocation_failure env inp Hv Ha) as [h Hmain].
    eexists. split; [exact Hmain |]. cbn [status stdout].
    clear Hmain. exits_settle.
Qed.

End Solve.

(** ** Runs of the program *)

Lemma validated_example1 : validated example1.
Proof. unfold validated, MAX_ITERATIONS, MAX_TOLERANCES; cbn; repeat split; lia. Defined.

Lemma validated_short_run : validated short_run.
Proof. unfold validated, MAX_ITERATIONS, MAX_TOLERANCES; cbn; repeat split; lia. Defined.

Lemma validated_degenerate_run : validated degenerate_run.
Proof. unfold validated, MAX_ITERATIONS, MAX_TOLERANCES; cbn; repeat split; lia. Defined.

Lemma allocated_env_ok : allocated env_ok.
Proof. repeat split; eexists; reflexivity. Defined.

Lemma sized_example1 :
  sized example1 (nan_block 21) (nan_block 21) (nan_block 21) (nan_block 21).
Proof. repeat split. Defined.

(** Example 1 of the source's header comment converges, in the pass with
    [i = 9], to the root the comment announces. *)
Example example1_converges :
  exists st,
    solve pow_repeated example1 (nan_block 21) (nan_block 21) (nan_block 21)
          (nan_block 21) prompts = Some st /\
    iters st = Some 9 /\ find_root st = true /\
    rd (x st) 10 = Some 0x1.1f59ac3c7d6cp+0%float.
Proof. eexists. split; [vm_compute; reflexivity |]. repeat split. Qed.

(** Example 2 of the source's header comment converges to the opposite
    root. *)
Example example2_converges :
  exists st,
    solve pow_repeated example2 (nan_block 21) (nan_block 21) (nan_block 21)
          (nan_block 21) prompts = Some st /\
    iters st = Some 9 /\ find_root st = true /\
    rd (x st) 10 = Some (-0x1.1f59ac3c7d6cp+0)%float.
Proof. eexists. split; [vm_compute; reflexivity |]. repeat split. Qed.

(** C8: the fourth allocation failing on an accepted input, the program
    writes the allocation diagnostic and exits with [EXIT_FAILURE] while the
    three blocks it did obtain, of [(3 + 1) * 8] bytes each, are still
    live: the exit of line 167 releases nothing. *)
Theorem allocation_failure_leaks :
  main pow_repeated env_c_fails short_run =
  Some {| status := EXIT_FAILURE;
          stdout := prompts
                    ++ [Text "Dynamic memory allocation problem ("; Int 32;
                        Text " bytes)."; Newline];
          heap_at_exit := {| next := 4; live := [(1%nat, 32); (2%nat, 32); (3%nat, 32)] |} |}.
Proof. vm_compute. reflexivity. Qed.

(** Against C3 as stated: an input that passes the three checks, and a
    failure exit before the solve all the same, the fourth allocation having
    failed. *)
Lemma failure_without_violation :
  validated short_run /\ ~ violation short_run /\
  exists r,
    main pow_repeated env_c_fails short_run = Some r /\
    status r = EXIT_FAILURE /\
    List.filter is_row (stdout r) = [] /\
    count_text msg_converged (stdout r) = 0%nat /\
    count_text msg_exhausted (stdout r) = 0%nat.
Proof.
  split; [exact validated_short_run |]. split.
  - intros [Heq | [Hit | Hn]].
    + vm_compute in Heq. discriminate.
    + apply Hit. unfold MAX_ITERATIONS. cbn. lia.
    + apply Hn. unfold MAX_TOLERANCES. cbn. lia.
  - eexists. split; [vm_compute; reflexivity |]. repeat split.
Qed.

(** Against C4 as stated: an accepted input on which neither outcome message
    is written, the fourth allocation having failed before the solve. *)
Lemma validated_run_without_message :
  validated short_run /\
  exists r,
    main pow_repeated env_c_fails short_run = Some r /\
    count_text msg_converged (stdout r) = 0%nat /\
    count_text msg_exhausted (stdout r) = 0%nat /\
    (count_text msg_converged (stdout r)
     + count_text msg_exhausted (stdout r) <> 1)%nat.
Proof.
  split; [exact validated_short_run |].
  eexists. split; [vm_compute; reflexivity |].
  repeat split. cbn. discriminate.
Qed.

(** Against C7 as stated: an accepted input on which the program does not
    end with status 0, the second and the fourth allocation having failed. *)
Lemma validated_run_with_failure_status :
  validated short_run /\
  exists r,
    main pow_repeated env_y_c_fail short_run = Some r /\
    status r = EXIT_FAILURE /\ status r <> 0 /\
    List.filter is_row (stdout r) = [].
Proof.
  split; [exact validated_short_run |].
  eexists. split; [vm_compute; reflexivity |].
  repeat split. cbn. discriminate.
Qed.

(** ** The theorems at work on concrete runs *)

Lemma seeding_witness :
  validated example1 /\
  sized example1 (nan_block 21) (nan_block 21) (nan_block 21) (nan_block 21) /\
  exists st0,
    prepare pow_repeated example1 (nan_block 21) (nan_block 21) (nan_block 21)
            (nan_block 21) prompts = Some st0 /\
    rd (x st0) 2 = Some 1.5%float /\
    rd (y st0) 2 = Some 9.390625%float /\
    rd (c st0) 0 = Some 63%float.
Proof.
  split; [exact validated_example1 |]. split; [exact sized_example1 |].
  destruct (seeding pow_repeated example1 _ _ _ _ prompts
              validated_example1 sized_example1)
    as (st0 & x0 & x1 & x2 & y0 & y1 & y2 & Hprep & _ & _ & _ & _ & _ & Hx2
        & _ & _ & Hy2 & -> & -> & -> & -> & -> & -> & Hc0).
  exists st0. split; [exact Hprep |]. rewrite Hx2, Hy2, Hc0.
  vm_compute. repeat split.
Defined.

Lemma muller_step_witness :
  validated example1 /\
  sized example1 (nan_block 21) (nan_block 21) (nan_block 21) (nan_block 21) /\
  exists st0 st1 x3,
    prepare pow_repeated example1 (nan_block 21) (nan_block 21) (nan_block 21)
            (nan_block 21) prompts = Some st0 /\
    body pow_repeated (tolerance pow_repeated 15) 2 st0 = Some (st1, false) /\
    rd (d st0) 2 = Some 0%float /\
    rd (d st1) 0 = Some 84.4375%float /\
    rd (d st1) 2 = Some 0%float /\
    rd (x st1) 3 = Some x3 /\
    (1.25 <? x3)%float = true /\ (x3 <? 1.375)%float = true.
Proof.
  split; [exact validated_example1 |]. split; [exact sized_example1 |].
  destruct (muller_step pow_repeated example1 _ _ _ _ prompts
              validated_example1 sized_example1)
    as (st0 & Hprep & Hstep & _).
  destruct (Hstep 2 st0 (head_first _ _ _ _) ltac:(cbn; lia))
    as (_ & xi & xi1 & xi2 & yi & yi1 & ci2 & di & st1 & stop
        & Hxi & Hxi1 & Hxi2 & Hyi & Hyi1 & Hci2 & Hdi & -> & Hbody
        & Hc1 & Hd0 & Hd2 & Hx3 & _).
  cbv zeta in Hd0, Hx3.
  exists st0, st1. eexists.
  split; [exact Hprep |].
  vm_compute in Hprep. injection Hprep as <-.
  vm_compute in Hxi, Hxi1, Hxi2, Hyi, Hyi1, Hci2.
  injection Hxi as <-. injection Hxi1 as <-. injection Hxi2 as <-.
  injection Hyi as <-. injection Hyi1 as <-. injection Hci2 as <-.
  assert (stop = false) as ->.
  { vm_compute in Hbody. injection Hbody as _ <-. reflexivity. }
  split; [exact Hbody |]. split; [exact Hdi |].
  split; [etransitivity; [exact Hd0 | vm_compute; reflexivity] |].
  split; [exact Hd2 |]. split; [exact Hx3 |].
  vm_compute. split; reflexivity.
Defined.

Lemma outcome_message_witness :
  validated example1 /\ allocated env_ok /\
  exists r,
    main pow_repeated env_ok example1 = Some r /\
    count_text msg_converged (stdout r) = 1%nat /\
    count_text msg_exhausted (stdout r) = 0%nat.
Proof.
  split; [exact validated_example1 |]. split; [exact allocated_env_ok |].
  destruct (outcome_message pow_repeated env_ok example1
              validated_example1 allocated_env_ok)
    as (_ & _ & _ & _ & _ & _ & r & _ & _ & _ & _ & Hmain & _).
  exists r. split; [exact Hmain |].
  vm_compute in Hmain. injection Hmain as <-. vm_compute. split; reflexivity.
Defined.

Lemma table_rows_witness :
  validated example1 /\ allocated env_ok /\
  exists r,
    main pow_repeated env_ok example1 = Some r /\
    length (List.filter is_row (stdout r)) = 10%nat /\
    stdout r !! 14%nat = Some (Row 1 1 (-1) 84.4375 63).
Proof.
  split; [exact validated_example1 |]. split; [exact allocated_env_ok |].
  destruct (table_rows pow_repeated env_ok example1
              validated_example1 allocated_env_ok)
    as (_ & _ & _ & _ & _ & _ & r & _ & _ & _ & _ & _ & Hmain & _).
  exists r. split; [exact Hmain |].
  vm_compute in Hmain. injection Hmain as <-. vm_compute. split; reflexivity.
Defined.

Lemma anomalies_are_not_errors_witness :
  validated degenerate_run /\ allocated env_ok /\
  exists r,
    main pow_repeated env_ok degenerate_run = Some r /\
    status r = EXIT_SUCCESS /\
    stdout r !! 17%nat = Some (Row 4 infinity infinity nan nan) /\
    count_text msg_exhausted (stdout r) = 1%nat.
Proof.
  split; [exact validated_degenerate_run |]. split; [exact allocated_env_ok |].
  destruct (anomalies_are_not_errors pow_repeated env_ok degenerate_run
              validated_degenerate_run allocated_env_ok)
    as (_ & _ & _ & _ & _ & _ & r & _ & _ & _ & Hmain & Hstatus & _).
  exists r. split; [exact Hmain |]. split; [exact Hstatus |].
  vm_compute in Hmain. injection Hmain as <-. vm_compute. split; reflexivity.
Defined.

Lemma iters_assigned_before_read_witness :
  validated short_run /\ allocated env_ok /\
  exists r,
    main pow_repeated env_ok short_run = Some r /\
    status r = EXIT_SUCCESS /\
    length (List.filter is_row (stdout r)) = 3%nat.
Proof.
  split; [exact validated_short_run |]. split; [exact allocated_env_ok |].
  destruct (iters_assigned_before_read pow_repeated env_ok short_run
              validated_short_run allocated_env_ok)
    as (_ & _ & _ & _ & _ & _ & _ & _ & _ & r & _ & _ & _ & _ & _ & _ & _
        & _ & _ & _ & Hmain).
  exists r. split; [exact Hmain |].
  vm_compute in Hmain. injection Hmain as <-. vm_compute. split; reflexivity.
Defined.

Lemma newest_approximation_not_printed_witness :
  validated example1 /\ allocated env_ok /\
  exists r xv yv,
    main pow_repeated env_ok example1 = Some r /\
    List.last (stdout r) Newline = Row 10 xv yv 0 0.
Proof.
  split; [exact validated_example1 |]. split; [exact allocated_env_ok |].
  destruct (newest_approximation_not_printed pow_repeated env_ok example1
              validated_example1 allocated_env_ok)
    as (_ & _ & _ & _ & _ & _ & r & _ & _ & _ & _ & _ & Hmain & _).
  exists r. do 2 eexists. split; [exact Hmain |].
  vm_compute in Hmain. injection Hmain as <-. vm_compute. reflexivity.
Defined.

(** * Further properties of the program *)

(** ** The zeroing loop and the content of fresh blocks *)

Lemma all_zero_replicate (a : list float) (n : nat) :
  length a = n ->
  (forall j, 0 <= j < Z.of_nat n -> rd a j = Some 0%float) ->
  a = replicate n 0%float.
Proof.
  intros Hlen Hz. apply list_eq. intros k.
  destruct (decide (k < n)%nat) as [Hk | Hk].
  - rewrite lookup_replicate_2 by done.
    rewrite <- (Nat2Z.id k), <- rd_lookup by lia. apply Hz. lia.
  - rewrite !lookup_ge_None_2; [done | rewrite length_replicate; lia | lia].
Qed.

(** After the zeroing loop the four arrays are all zeros. *)
Lemma init_zero_cells (arr_size : Z) (st : locals) :
  Z.of_nat (length (x st)) = arr_size -> Z.of_nat (length (y st)) = arr_size ->
  Z.of_nat (length (d st)) = arr_size -> Z.of_nat (length (c st)) = arr_size ->
  exists st',
    init_zero (Z.to_nat arr_size) arr_size 0 st = Some st' /\
    x st' = replicate (Z.to_nat arr_size) 0%float /\
    y st' = replicate (Z.to_nat arr_size) 0%float /\
    d st' = replicate (Z.to_nat arr_size) 0%float /\
    c st' = replicate (Z.to_nat arr_size) 0%float /\
    iters st' = iters st /\ find_root st' = find_root st /\ out st' = out st.
Proof.
  intros Lx Ly Ld Lc.
  destruct (init_zero_run arr_size (Z.to_nat arr_size) 0 st)
    as (st' & Hrun & Lx' & Ly' & Ld' & Lc' & Hit & Hfr & Hout & _ & Hzero);
    try done; try lia.
  exists st'. split; [done |].
  repeat split; try done; apply all_zero_replicate; try lia;
    intros j Hj; apply Hzero; lia.
Qed.

(** X1: the loop of lines 171-172 overwrites every cell of the four arrays
    with [+0.0], whatever the blocks held, and touches nothing else. *)
Theorem init_zero_clears (arr_size : Z) (st : locals) :
  Z.of_nat (length (x st)) = arr_size -> Z.of_nat (length (y st)) = arr_size ->
  Z.of_nat (length (d st)) = arr_size -> Z.of_nat (length (c st)) = arr_size ->
  init_zero (Z.to_nat arr_size) arr_size 0 st =
  Some {| x := replicate (Z.to_nat arr_size) 0%float;
          y := replicate (Z.to_nat arr_size) 0%float;
          d := replicate (Z.to_nat arr_size) 0%float;
          c := replicate (Z.to_nat arr_size) 0%float;
          iters := iters st; find_root := find_root st; out := out st |}.
Proof.
  intros Lx Ly Ld Lc.
  destruct (init_zero_cells arr_size st Lx Ly Ld Lc)
    as (st' & Hrun & Hx & Hy & Hd & Hc & Hit & Hfr & Hout).
  rewrite Hrun. destruct st' as [xs ys ds cs it fr o]. cbn in *.
  by subst.
Qed.

Lemma init_zero_clears_witness :
  init_zero 4 4 0 {| x := nan_block 4; y := nan_block 4; d := nan_block 4;
                     c := nan_block 4; iters := None; find_root := false;
                     out := prompts |}
  = Some {| x := [0; 0; 0; 0]%float; y := [0; 0; 0; 0]%float;
            d := [0; 0; 0; 0]%float; c := [0; 0; 0; 0]%float;
            iters := None; find_root := false; out := prompts |}.
Proof.
  exact (init_zero_clears 4 {| x := nan_block 4; y := nan_block 4;
                               d := nan_block 4; c := nan_block 4;
                               iters := None; find_root := false;
                               out := prompts |}
           eq_refl eq_refl eq_refl eq_refl).
Defined.

Section Further.

Variable pow : float -> float -> float.

Lemma solve_ignores_garbage inp ax ay ad ac ax' ay' ad' ac' o :
  sized inp ax ay ad ac -> sized inp ax' ay' ad' ac' ->
  solve pow inp ax ay ad ac o = solve pow inp ax' ay' ad' ac' o.
Proof.
  intros (Lx & Ly & Ld & Lc) (Lx' & Ly' & Ld' & Lc').
  unfold solve, prepare.
  destruct (init_zero_cells (in_iters inp + 1)
              {| x := ax; y := ay; d := ad; c := ac; iters := None;
                 find_root := false; out := o |} Lx Ly Ld Lc)
    as ([xs ys ds cs it fr o1] & -> & Hcells).
  destruct (init_zero_cells (in_iters inp + 1)
              {| x := ax'; y := ay'; d := ad'; c := ac'; iters := None;
                 find_root := false; out := o |} Lx' Ly' Ld' Lc')
    as ([xs' ys' ds' cs' it' fr' o1'] & -> & Hcells').
  cbn in Hcells, Hcells'.
  destruct Hcells as (-> & -> & -> & -> & -> & -> & ->).
  destruct Hcells' as (-> & -> & -> & -> & -> & -> & ->).
  reflexivity.
Qed.

(** A run that fails one of the three checks ends at once, having
    allocated nothing. *)
Lemma main_rejects env inp :
  ~ validated inp ->
  exists o,
    main pow env inp =
    Some {| status := EXIT_FAILURE; stdout := o; heap_at_exit := empty_heap |}.
Proof.
  intros Hnv. unfold main.
  destruct (in_x0 inp =? in_x1 inp)%float eqn:Hne; [eauto |].
  destruct (Z.leb_spec (in_iters inp) 2);
    destruct (Z.ltb_spec MAX_ITERATIONS (in_iters inp)); cbn [orb]; eauto.
  destruct (Z.leb_spec (in_n inp) 0);
    destruct (Z.ltb_spec MAX_TOLERANCES (in_n inp)); cbn [orb]; eauto.
  destruct Hnv. unfold validated. auto with lia.
Qed.

(** X2: once the four extractions from standard input have each stored a
    value, the program does not fault.  For all four values and every
    behaviour of [malloc], [main] runs to an exit: no array is accessed
    outside its block, [iters] is never read unassigned and no block is
    released twice; the exit status is [EXIT_SUCCESS] or [EXIT_FAILURE]. *)
Theorem main_never_faults env inp :
  exists r,
    main pow env inp = Some r /\
    (status r = EXIT_SUCCESS \/ status r = EXIT_FAILURE).
Proof.
  destruct (decide (validated inp)) as [Hv | Hv].
  - destruct (decide (allocated env)) as [Ha | Ha].
    + destruct (main_run pow env inp Hv Ha)
        as (ax & ay & ad & ac & st & last & rows & _ & _ & _ & Hmain & _).
      eexists. split; [exact Hmain | by left].
    + destruct (main_allocation_failure pow env inp Hv Ha) as [h Hmain].
      eexists. split; [exact Hmain | by right].
  - destruct (main_rejects env inp Hv) as [o Hmain].
    eexists. split; [exact Hmain | by right].
Qed.

(** X3: what [malloc] leaves in the blocks never reaches the result: two
    runs on the same input whose allocations all succeed end alike, whatever
    the fresh blocks held. *)
Theorem garbage_never_read env env' inp :
  allocated env -> allocated env' ->
  main pow env inp = main pow env' inp.
Proof.
  intros ([gx Hgx] & [gy Hgy] & [gd Hgd] & [gc Hgc])
         ([gx' Hgx'] & [gy' Hgy'] & [gd' Hgd'] & [gc' Hgc']).
  unfold main.
  destruct (in_x0 inp =? in_x1 inp)%float; [done |].
  destruct ((in_iters inp <=? 2) || (MAX_ITERATIONS <? in_iters inp)); [done |].
  destruct ((in_n inp <=? 0) || (MAX_TOLERANCES <? in_n inp)); [done |].
  rewrite Hgx, Hgy, Hgd, Hgc, Hgx', Hgy', Hgd', Hgc'. cbn [malloc cells].
  set (n := Z.to_nat ((in_iters inp + 1) * sizeof_double / sizeof_double)).
  assert (Hn : Z.of_nat n = in_iters inp + 1 \/ in_iters inp + 1 < 0).
  { subst n. unfold sizeof_double. rewrite Z.div_mul by done. lia. }
  destruct Hn as [Hn | Hneg].
  - rewrite (solve_ignores_garbage inp (gx <$> seq 0 n) (gy <$> seq 0 n)
               (gd <$> seq 0 n) (gc <$> seq 0 n)
               (gx' <$> seq 0 n) (gy' <$> seq 0 n)
               (gd' <$> seq 0 n) (gc' <$> seq 0 n));
      try (unfold sized; by rewrite !length_fmap, !length_seq).
    destruct (solve _ _ _ _ _ _ _) as [st |]; [| done]. cbn [mbind option_bind].
    destruct (report _ _) as [o |]; [| done]. cbn [mbind option_bind].
    destruct (iters st) as [last |]; [| done]. cbn [mbind option_bind].
    destruct (print_rows _ _ _ _) as [o' |]; [| done]. reflexivity.
  - assert (n = 0%nat) as -> by (subst n; unfold sizeof_double;
                                  rewrite Z.div_mul by done; lia).
    reflexivity.
Qed.

(** ** Memory at exit *)

(** X4: every exit other than the allocation-failure exit leaves no block
    behind: a rejected input ends before anything is allocated, and the exit
    that follows the table has released all four blocks. *)
Theorem exits_without_leak env inp r :
  main pow env inp = Some r ->
  violation inp \/ allocated env ->
  live (heap_at_exit r) = [].
Proof.
  intros Hmain Hcase.
  destruct (decide (validated inp)) as [Hv | Hv].
  - destruct Hcase as [Hviol | Ha].
    + destruct Hv as (Hne & HU & Hn).
      destruct Hviol as [? | [? | ?]]; [congruence | done | done].
    + destruct (main_run pow env inp Hv Ha)
        as (ax & ay & ad & ac & st & last & rows & _ & _ & _ & Hmain' & _).
      rewrite Hmain in Hmain'. by injection Hmain' as ->.
  - destruct (main_rejects env inp Hv) as [o Hmain'].
    rewrite Hmain in Hmain'. by injection Hmain' as ->.
Qed.

(** X5: the allocation-failure exit releases nothing.  On an accepted input
    with a failing allocation the program exits with [EXIT_FAILURE] and
    every block it did obtain is still live, each of
    [(usr_iters + 1) * sizeof (double)] bytes. *)
Theorem allocation_failure_keeps_blocks env inp :
  validated inp -> ~ allocated env ->
  exists r,
    main pow env inp = Some r /\
    status r = EXIT_FAILURE /\
    length (live (heap_at_exit r)) = blocks_obtained env /\
    (blocks_obtained env < 4)%nat /\
    forall b, b ∈ live (heap_at_exit r) ->
              snd b = (in_iters inp + 1) * sizeof_double.
Proof.
  intros (Hne & HU & Hn) Hna. unfold main. rewrite Hne.
  destruct (Z.leb_spec (in_iters inp) 2); [lia |].
  destruct (Z.ltb_spec MAX_ITERATIONS (in_iters inp)); [lia |].
  destruct (Z.leb_spec (in_n inp) 0); [lia |].
  destruct (Z.ltb_spec MAX_TOLERANCES (in_n inp)); [lia |].
  cbn [orb]. unfold blocks_obtained.
  destruct (not_allocated_inv env Hna) as [E | [E | [E | E]]];
    destruct (m_x env), (m_y env), (m_d env), (m_c env);
    try discriminate E; cbn [malloc obtained]; eexists;
    (split; [reflexivity |]); (split; [reflexivity |]);
    cbn [heap_at_exit live next app length];
    (split; [reflexivity |]); (split; [lia |]);
    intros b Hb;
    repeat (apply elem_of_cons in Hb as [-> | Hb]; [reflexivity |]);
    by apply elem_of_nil in Hb.
Qed.

End Further.

Lemma allocated_env_ones : allocated env_ones.
Proof. repeat split; eexists; reflexivity. Defined.

Lemma garbage_never_read_witness :
  allocated env_ok /\ allocated env_ones /\
  main pow_repeated env_ok example1 = main pow_repeated env_ones example1.
Proof.
  split; [exact allocated_env_ok |]. split; [exact allocated_env_ones |].
  exact (garbage_never_read pow_repeated env_ok env_ones example1
           allocated_env_ok allocated_env_ones).
Defined.

Lemma exits_without_leak_witness :
  exists r,
    main pow_repeated env_ok example1 = Some r /\
    (violation example1 \/ allocated env_ok) /\
    live (heap_at_exit r) = [].
Proof.
  destruct (main_run pow_repeated env_ok example1 validated_example1
              allocated_env_ok)
    as (ax & ay & ad & ac & st & last & rows & _ & _ & _ & Hmain & _).
  eexists. split; [exact Hmain |].
  split; [right; exact allocated_env_ok |].
  exact (exits_without_leak pow_repeated env_ok example1 _ Hmain
           (or_intror allocated_env_ok)).
Defined.

Lemma not_allocated_env_y_c_fail : ~ allocated env_y_c_fail.
Proof. intros (_ & [g Hg] & _). discriminate Hg. Defined.

Lemma allocation_failure_keeps_blocks_witness :
  validated short_run /\ ~ allocated env_y_c_fail /\
  exists r,
    main pow_repeated env_y_c_fail short_run = Some r /\
    live (heap_at_exit r) = [(1%nat, 32); (2%nat, 32)].
Proof.
  split; [exact validated_short_run |].
  split; [exact not_allocated_env_y_c_fail |].
  destruct (allocation_failure_keeps_blocks pow_repeated env_y_c_fail short_run
              validated_short_run not_allocated_env_y_c_fail)
    as (r & Hmain & _).
  exists r. split; [exact Hmain |].
  vm_compute in Hmain. injection Hmain as <-. reflexivity.
Defined.

(** ** The recorded history *)

Lemma sub_not_finite (a b : float) :
  is_finite a = false -> is_finite (a - b) = false.
Proof.
  unfold is_finite.
  rewrite !FloatAxioms.ltb_spec, !FloatAxioms.abs_spec, FloatAxioms.sub_spec.
  change (Prim2SF infinity) with (S754_infinity false).
  destruct (Prim2SF a) as [ sa | sa | | sa ma ea ]; cbn; try congruence;
    intros _; destruct (Prim2SF b) as [ sb | sb | | sb mb eb ];
    unfold SF64sub; cbn [SFsub];
    repeat match goal with
           | |- context [if ?t then _ else _] => destruct t
           end; reflexivity.
Qed.

Lemma SFeqb_refl (f : spec_float) : f <> S754_nan -> SFeqb f f = true.
Proof.
  destruct f as [ [] | [] | | [] m e ]; intros Hn; try done;
    unfold SFeqb, SFcompare;
    change (Pos.compare_cont Eq m m) with (Pos.compare m m);
    rewrite Z.compare_refl, Pos.compare_refl; done.
Qed.

(** A finite double minus itself is [+0.0]. *)
Lemma sub_self (a : float) :
  is_finite a = true -> Prim2SF (a - a) = S754_zero false.
Proof.
  unfold is_finite.
  rewrite FloatAxioms.ltb_spec, FloatAxioms.abs_spec, FloatAxioms.sub_spec.
  change (Prim2SF infinity) with (S754_infinity false).
  destruct (Prim2SF a) as [ [] | [] | | s m e ]; cbn; try congruence.
  intros _. unfold SF64sub, SFsub. by rewrite Z.sub_diag.
Qed.

Lemma sub_self_below (a tol : float) :
  is_finite a = true -> (0 <? tol)%float = true ->
  (abs (a - a) <? tol)%float = true.
Proof.
  intros Ha. rewrite !FloatAxioms.ltb_spec, FloatAxioms.abs_spec, (sub_self a Ha).
  done.
Qed.

(** X9: [sign] is odd: negating a double negates its sign, for zeros and
    not-a-number as well. *)
Theorem sign_opp (v : float) : sign (- v) = - sign v.
Proof.
  unfold sign. rewrite !FloatAxioms.ltb_spec, FloatAxioms.opp_spec.
  change (Prim2SF 0%float) with (S754_zero false).
  destruct (Prim2SF v) as [ [] | [] | | [] m e ]; reflexivity.
Qed.

(** X10: [sign] returns 1 only on positive doubles, -1 only on negative
    ones, and 0 exactly on the two zeros and on not-a-number (the doubles
    that differ from themselves); it returns nothing else. *)
Theorem sign_classification (v : float) :
  (sign v = 1 <-> (0 <? v)%float = true) /\
  (sign v = -1 <-> (v <? 0)%float = true) /\
  (sign v = 0 <-> (v =? 0)%float = true \/ (v =? v)%float = false) /\
  (sign v = 1 \/ sign v = -1 \/ sign v = 0).
Proof.
  unfold sign.
  rewrite !FloatAxioms.ltb_spec, !FloatAxioms.eqb_spec.
  change (Prim2SF 0%float) with (S754_zero false).
  destruct (Prim2SF v) as [ [] | [] | | [] m e ] eqn:E;
    try rewrite SFeqb_refl by done; cbn;
    repeat split; intros; try done; try tauto; try lia;
    try (destruct H; done); auto.
Qed.

Ltac rd_after_write :=
  repeat first
    [ rewrite rd_insert_eq by (rewrite ?length_insert; lia)
    | rewrite rd_insert_ne by lia ].

Section History.

Variable pow : float -> float -> float.

(** A pass writes [x[i+1]], [y[i+1]], [c[i-1]] and [d[i-2]] and no other
    cell. *)
Lemma body_frame tol usr_iters o i st st' stop :
  loop_inv pow tol usr_iters o i st -> i < usr_iters ->
  body pow tol i st = Some (st', stop) ->
  (forall j, j <> i + 1 -> rd (x st') j = rd (x st) j) /\
  (forall j, j <> i + 1 -> rd (y st') j = rd (y st) j) /\
  (forall j, j <> i - 1 -> rd (c st') j = rd (c st) j) /\
  (forall j, j <> i - 2 -> rd (d st') j = rd (d st) j).
Proof.
  intros Inv Hlt Hbody. destruct Inv.
  destruct (rd_in_bounds (x st) i) as [xi Hxi]; [lia |].
  destruct (rd_in_bounds (x st) (i - 1)) as [xi1 Hxi1]; [lia |].
  destruct (rd_in_bounds (x st) (i - 2)) as [xi2 Hxi2]; [lia |].
  destruct (rd_in_bounds (y st) i) as [yi Hyi]; [lia |].
  destruct (rd_in_bounds (y st) (i - 1)) as [yi1 Hyi1]; [lia |].
  destruct (rd_in_bounds (c st) (i - 2)) as [ci2 Hci2]; [lia |].
  pose proof (inv_d_zero0 i ltac:(lia)) as Hdi.
  pose proof (body_run pow tol i st xi xi1 xi2 yi yi1 ci2 0%float
                ltac:(lia) ltac:(lia) ltac:(lia) ltac:(lia) ltac:(lia)
                Hxi Hxi1 Hxi2 Hyi Hyi1 Hci2 Hdi) as Hrun.
  cbv zeta in Hrun. rewrite Hbody in Hrun. injection Hrun as -> _.
  cbn [x y d c]. repeat split; intros; by rd_after_write.
Qed.

(** The passes from [i] on leave the cells below their reach as they are. *)
Lemma loop_frame tol usr_iters o fuel :
  forall i st st',
    loop_inv pow tol usr_iters o i st ->
    loop pow fuel tol usr_iters i st = Some st' ->
    (forall j, j <= i -> rd (x st') j = rd (x st) j) /\
    (forall j, j <= i -> rd (y st') j = rd (y st) j) /\
    (forall j, j <= i - 2 -> rd (c st') j = rd (c st) j) /\
    (forall j, j <= i - 3 -> rd (d st') j = rd (d st) j).
Proof.
  induction fuel as [| fuel IH]; intros i st st' Inv;
    cbn [loop]; destruct (Z.ltb_spec i usr_iters) as [Hlt | Hge];
    try done; try (by intros [= <-]).
  destruct (body_inv pow tol usr_iters o i st Inv Hlt)
    as (st1 & stop & Hbody & _ & Hcont & _).
  rewrite Hbody. cbn.
  destruct (body_frame tol usr_iters o i st st1 stop Inv Hlt Hbody)
    as (Fx & Fy & Fc & Fd).
  destruct stop.
  - intros [= <-]. repeat split; intros;
      first [apply Fx | apply Fy | apply Fc | apply Fd]; lia.
  - intros Hloop.
    destruct (IH (i + 1) st1 st' (Hcont eq_refl) Hloop) as (Gx & Gy & Gc & Gd).
    repeat split; intros.
    + rewrite Gx, Fx by lia. done.
    + rewrite Gy, Fy by lia. done.
    + rewrite Gc, Fc by lia. done.
    + rewrite Gd, Fd by lia. done.
Qed.

(** The run of [main] on an accepted input, with what its history holds:
    the seeds are still in place and every value recorded in [y] is the
    value of [function] at the approximation recorded beside it. *)
Lemma history_run env inp :
  validated inp -> allocated env ->
  exists ax ay ad ac st last rows,
    sized inp ax ay ad ac /\
    solve pow inp ax ay ad ac prompts = Some st /\
    loop_post pow (tolerance pow (in_n inp)) (in_iters inp) prompts last st /\
    main pow env inp =
      Some {| status := EXIT_SUCCESS;
              stdout := prompts
                        ++ [Text (if find_root st then msg_converged
                                  else msg_exhausted); Newline; Newline]
                        ++ header ++ rows;
              heap_at_exit := {| next := 5; live := [] |} |} /\
    Z.of_nat (length rows) = last + 1 /\
    forallb is_row rows = true /\
    (forall k, 0 <= k <= last ->
       exists xv yv dv cv,
         rd (x st) k = Some xv /\ rd (y st) k = Some yv /\
         rd (d st) k = Some dv /\ rd (c st) k = Some cv /\
         rows !! Z.to_nat k = Some (Row (k + 1) xv yv dv cv)) /\
    rd (x st) 0 = Some (in_x0 inp) /\
    rd (x st) 1 = Some (in_x1 inp) /\
    rd (x st) 2 = Some ((in_x0 inp + in_x1 inp) / 2)%float /\
    rd (c st) 0 =
      Some ((function pow (in_x1 inp) - function pow (in_x0 inp))
            / (in_x1 inp - in_x0 inp))%float /\
    (forall k, 0 <= k <= last + 1 ->
       exists xv, rd (x st) k = Some xv /\
                  rd (y st) k = Some (function pow xv)).
Proof.
  intros Hv Ha.
  destruct (main_run pow env inp Hv Ha)
    as (ax & ay & ad & ac & st & last & rows & Hs & Hsolve & Post & Hmain
        & Hlen & Hrows & Hk).
  destruct (prepare_run pow inp ax ay ad ac prompts Hv Hs)
    as (st0 & Hprep & Inv0 & Hx0 & Hx1 & Hx2 & Hy0 & Hy1 & Hy2 & Hc0).
  pose proof Hsolve as Hloop. unfold solve in Hloop.
  rewrite Hprep in Hloop. cbn [mbind option_bind] in Hloop.
  destruct (loop_frame _ _ _ _ _ _ _ Inv0 Hloop) as (Fx & Fy & Fc & Fd).
  exists ax, ay, ad, ac, st, last, rows.
  do 7 (split; [done |]).
  rewrite !Fx, Fc by lia. do 4 (split; [done |]).
  intros k Hk'.
  destruct (decide (k <= 2)) as [Hle | Hgt].
  - rewrite Fx, Fy by lia.
    assert (k = 0 \/ k = 1 \/ k = 2) as [-> | [-> | ->]] by lia; eauto.
  - destruct (post_steps _ _ _ _ _ _ Post (k - 1) ltac:(lia))
      as (xk & xk1 & xk2 & yk & yk1 & ck1 & ck2 & dk2 & xn
          & _ & _ & _ & _ & _ & _ & _ & _ & Hxn & _ & _ & _ & Hyn).
    replace (k - 1 + 1) with k in Hxn, Hyn by lia. eauto.
Qed.

(** X6: the seeds are never overwritten, so the table of a run that reaches
    the solve has between three and [usr_iters] rows, and its first three
    rows show the user's two points and their midpoint, each with the value
    of [function] there; the [c] column of the first row is the first
    divided difference. *)
Theorem table_starts_with_seeds env inp :
  validated inp -> allocated env ->
  let x0 := in_x0 inp in
  let x1 := in_x1 inp in
  let x2 := ((x0 + x1) / 2)%float in
  exists r rows d0 d1 d2 c1 c2,
    main pow env inp = Some r /\
    List.filter is_row (stdout r) = rows /\
    3 <= Z.of_nat (length rows) <= in_iters inp /\
    rows !! 0%nat =
      Some (Row 1 x0 (pow x0 6 - 2) d0
                (((pow x1 6 - 2) - (pow x0 6 - 2)) / (x1 - x0))) /\
    rows !! 1%nat = Some (Row 2 x1 (pow x1 6 - 2) d1 c1) /\
    rows !! 2%nat = Some (Row 3 x2 (pow x2 6 - 2) d2 c2).
Proof.
  intros Hv Ha x0 x1 x2. subst x0 x1 x2.
  destruct (history_run env inp Hv Ha)
    as (ax & ay & ad & ac & st & last & rows & _ & _ & Post & Hmain
        & Hlen & Hrows & Hk & Hx0 & Hx1 & Hx2 & Hc0 & Hy).
  pose proof (post_range _ _ _ _ _ _ Post) as Hlast.
  destruct (Hk 0 ltac:(lia)) as (xv0 & yv0 & d0 & cv0 & Ex0 & Ey0 & _ & Ec0 & R0).
  destruct (Hk 1 ltac:(lia)) as (xv1 & yv1 & d1 & c1 & Ex1 & Ey1 & _ & _ & R1).
  destruct (Hk 2 ltac:(lia)) as (xv2 & yv2 & d2 & c2 & Ex2 & Ey2 & _ & _ & R2).
  destruct (Hy 0 ltac:(lia)) as (? & Fx0 & Fy0).
  destruct (Hy 1 ltac:(lia)) as (? & Fx1 & Fy1).
  destruct (Hy 2 ltac:(lia)) as (? & Fx2 & Fy2).
  simplify_eq.
  eexists _, rows, d0, d1, d2, c1, c2.
  split; [exact Hmain |]. cbn [stdout].
  split.
  { rewrite !List.filter_app, (filter_rows_only rows Hrows). done. }
  split; [lia |]. done.
Qed.

(** X7: every row of the table pairs an approximation with the value of
    [function] at it: the [f(x)] column is [pow (x, 6) - 2] of the [x]
    column, in every row of every run that reaches the solve. *)
Theorem rows_show_function_values env inp :
  validated inp -> allocated env ->
  exists r,
    main pow env inp = Some r /\
    forall step xv yv dv cv,
      Row step xv yv dv cv ∈ stdout r -> yv = (pow xv 6 - 2)%float.
Proof.
  intros Hv Ha.
  destruct (history_run env inp Hv Ha)
    as (ax & ay & ad & ac & st & last & rows & _ & _ & Post & Hmain
        & Hlen & Hrows & Hk & _ & _ & _ & _ & Hy).
  eexists. split; [exact Hmain |]. cbn [stdout].
  intros step xv yv dv cv Hin.
  rewrite !elem_of_app in Hin.
  destruct Hin as [Hin | [Hin | [Hin | Hin]]].
  - unfold prompts in Hin.
    repeat (apply elem_of_cons in Hin as [Hin | Hin]; [discriminate Hin |]).
    by apply elem_of_nil in Hin.
  - repeat (apply elem_of_cons in Hin as [Hin | Hin]; [discriminate Hin |]).
    by apply elem_of_nil in Hin.
  - unfold header in Hin.
    repeat (apply elem_of_cons in Hin as [Hin | Hin]; [discriminate Hin |]).
    by apply elem_of_nil in Hin.
  - apply list_elem_of_lookup_1 in Hin as [n Hn].
    assert (Z.of_nat n <= last) by (apply lookup_lt_Some in Hn; lia).
    destruct (Hk (Z.of_nat n) ltac:(lia))
      as (xv' & yv' & dv' & cv' & Ex & Ey & _ & _ & Hrow).
    rewrite Nat2Z.id, Hn in Hrow. injection Hrow as _ <- <- _ _.
    destruct (Hy (Z.of_nat n) ltac:(lia)) as (xv'' & Fx & Fy).
    unfold function in Fy. congruence.
Qed.

End History.

(** ** Approximations that are not finite, and repeated ones *)

Section Anomalies.

Variable pow : float -> float -> float.

(** In the recorded history, an approximation that is infinite or
    not-a-number is followed by such approximations only. *)
Lemma history_not_finite tol usr_iters o last st k xk :
  loop_post pow tol usr_iters o last st ->
  2 <= k <= last + 1 ->
  rd (x st) k = Some xk -> is_finite xk = false ->
  forall j, k <= j <= last + 1 ->
    exists xj, rd (x st) j = Some xj /\ is_finite xj = false.
Proof.
  intros Post Hk Hxk Hfin j Hj.
  replace j with (k + Z.of_nat (Z.to_nat (j - k))) by lia.
  assert (Hm : k + Z.of_nat (Z.to_nat (j - k)) <= last + 1) by lia.
  induction (Z.to_nat (j - k)) as [| m IH].
  - rewrite Z.add_0_r. eauto.
  - destruct IH as (xm & Hxm & Hfm); [lia |].
    destruct (post_steps _ _ _ _ _ _ Post (k + Z.of_nat m) ltac:(lia))
      as (xk' & xk1 & xk2 & yk & yk1 & ck1 & ck2 & dk2 & xn
          & Hx' & _ & _ & _ & _ & _ & _ & _ & Hxn & _ & _ & Hnext & _).
    rewrite Hxm in Hx'. injection Hx' as <-.
    replace (k + Z.of_nat (S m)) with (k + Z.of_nat m + 1) by lia.
    exists xn. split; [done |]. rewrite Hnext. unfold next_x.
    by apply sub_not_finite.
Qed.

(** The loop does not stop on an approximation that is not finite. *)
Lemma not_finite_exhausts tol usr_iters o last st xn :
  loop_post pow tol usr_iters o last st ->
  rd (x st) (last + 1) = Some xn -> is_finite xn = false ->
  find_root st = false /\ last = usr_iters - 1.
Proof.
  intros Post Hxn Hfin.
  destruct (post_end _ _ _ _ _ _ Post) as [(Hc & _) | (_ & Hl & Hfr & _)];
    [| done].
  unfold converged_at in Hc. rewrite Hxn in Hc.
  destruct (rd (x st) last) as [xl |]; [| done].
  cbn in Hc. injection Hc as Hc.
  destruct (close_is_finite xn xl _ Hc) as [Hfin' _].
  unfold is_finite in Hfin. congruence.
Qed.

(** X8: an approximation that is infinite or not-a-number is never
    recovered from.  If a row of the table from the third on shows such an
    [x], every later row does, the whole budget is spent (the table has
    [usr_iters] rows) and the run reports that the tolerance was not
    reached. *)
Theorem not_finite_never_recovers env inp :
  validated inp -> allocated env ->
  exists r rows,
    main pow env inp = Some r /\
    List.filter is_row (stdout r) = rows /\
    forall (n : nat) step xv yv dv cv,
      (2 <= n)%nat ->
      rows !! n = Some (Row step xv yv dv cv) ->
      is_finite xv = false ->
      (forall (m : nat) step' xv' yv' dv' cv',
         (n <= m)%nat ->
         rows !! m = Some (Row step' xv' yv' dv' cv') ->
         is_finite xv' = false) /\
      Z.of_nat (length rows) = in_iters inp /\
      count_text msg_exhausted (stdout r) = 1%nat /\
      count_text msg_converged (stdout r) = 0%nat.
Proof.
  intros Hv Ha.
  destruct (main_run pow env inp Hv Ha)
    as (ax & ay & ad & ac & st & last & rows & _ & _ & Post & Hmain
        & Hlen & Hrows & Hk).
  eexists _, rows. split; [exact Hmain |]. cbn [stdout].
  split.
  { rewrite !List.filter_app, (filter_rows_only rows Hrows). done. }
  intros n step xv yv dv cv Hn Hrow Hfin.
  assert (Hnl : Z.of_nat n <= last) by (apply lookup_lt_Some in Hrow; lia).
  destruct (Hk (Z.of_nat n) ltac:(lia))
    as (xv0 & yv0 & dv0 & cv0 & Hx & _ & _ & _ & Hrow0).
  rewrite Nat2Z.id, Hrow in Hrow0. injection Hrow0 as _ -> _ _ _.
  assert (Hrange : 2 <= Z.of_nat n <= last + 1) by lia.
  pose proof (history_not_finite _ _ _ _ _ _ _ Post Hrange Hx Hfin) as Hall.
  destruct (Hall (last + 1) ltac:(lia)) as (xl & Hxl & Hfl).
  destruct (not_finite_exhausts _ _ _ _ _ _ Post Hxl Hfl) as [Hfr Hlast].
  split; [| split; [lia |]].
  - intros m step' xv' yv' dv' cv' Hm Hrow'.
    assert (Z.of_nat m <= last) by (apply lookup_lt_Some in Hrow'; lia).
    destruct (Hk (Z.of_nat m) ltac:(lia))
      as (xv1 & yv1 & dv1 & cv1 & Hx1 & _ & _ & _ & Hrow1).
    rewrite Nat2Z.id, Hrow' in Hrow1. injection Hrow1 as _ -> _ _ _.
    destruct (Hall (Z.of_nat m) ltac:(lia)) as (xm & Hxm & Hfm). congruence.
  - rewrite !count_text_app, !(count_text_rows _ rows Hrows), Hfr. done.
Qed.

(** X11: the output of a run that reaches the solve is, in this order: the
    banner and the four prompts, a newline, one of the two outcome messages,
    an empty line, the two-part header, and the table rows; nothing follows
    the last row and the status is [EXIT_SUCCESS]. *)
Theorem success_output env inp :
  validated inp -> allocated env ->
  exists r msg rows,
    main pow env inp = Some r /\
    status r = EXIT_SUCCESS /\
    stdout r =
      [Text "Muller's root-finding arithmetic method."; Newline; Newline;
       Text "Input point x0: "; Text "Input point x1: ";
       Text "Iterations: "; Text "Tolerance: "; Newline;
       Text msg; Newline; Newline;
       Text "|step]     |x]                      |f(x)]                   ";
       Text "|d]                      |c]"; Newline] ++ rows /\
    (msg = "Method has converged to a root."%string \/
     msg = "Method it didn't reach the allowed tolerance."%string) /\
    forallb is_row rows = true /\
    3 <= Z.of_nat (length rows) <= in_iters inp.
Proof.
  intros Hv Ha.
  destruct (main_run pow env inp Hv Ha)
    as (ax & ay & ad & ac & st & last & rows & _ & _ & Post & Hmain
        & Hlen & Hrows & _).
  pose proof (post_range _ _ _ _ _ _ Post).
  eexists _, _, rows. split; [exact Hmain |]. cbn [status stdout].
  split; [done |]. split; [reflexivity |].
  split; [destruct (find_root st); auto |]. split; [done | lia].
Qed.

(** X12: when the tolerance is positive, a pass that reproduces a finite
    approximation exactly always passes the test of line 215; so in the
    recorded history no pass before the last is followed by the
    approximation it started from. *)
Theorem repeated_approximation_stops inp ax ay ad ac o :
  validated inp -> sized inp ax ay ad ac ->
  (0 <? tolerance pow (in_n inp))%float = true ->
  exists st last,
    solve pow inp ax ay ad ac o = Some st /\
    iters st = Some last /\
    forall k xk,
      2 <= k < last ->
      rd (x st) k = Some xk -> is_finite xk = true ->
      rd (x st) (k + 1) <> Some xk.
Proof.
  intros Hv Hs Htol.
  destruct (solve_run pow inp ax ay ad ac o Hv Hs) as (st & last & Hsolve & Post).
  exists st, last. split; [done |].
  split; [exact (post_iters _ _ _ _ _ _ Post) |].
  intros k xk Hk Hxk Hfin Hrep.
  pose proof (post_no_conv _ _ _ _ _ _ Post k Hk) as Hnc.
  unfold converged_at in Hnc. rewrite Hrep, Hxk in Hnc.
  cbn [mbind option_bind] in Hnc.
  rewrite (sub_self_below xk _ Hfin Htol) in Hnc. done.
Qed.

End Anomalies.

(** ** A larger iteration budget *)

Lemma rd_insert_agree (a a' : list float) (k j : Z) (v : float) :
  0 <= k < Z.of_nat (length a) -> 0 <= k < Z.of_nat (length a') ->
  (j <> k -> rd a j = rd a' j) ->
  rd (<[Z.to_nat k := v]> a) j = rd (<[Z.to_nat k := v]> a') j.
Proof.
  intros Hk Hk' Hj. destruct (decide (j = k)) as [-> | Hne].
  - by rewrite !rd_insert_eq.
  - rewrite !rd_insert_ne by lia. auto.
Qed.

Section Budget.

Variable pow : float -> float -> float.

(** A pass computes the same from two states that hold the same history,
    whatever room the arrays have above it. *)
Lemma body_sim tol U U' o i st st' st1 stop :
  loop_inv pow tol U o i st -> loop_inv pow tol U' o i st' ->
  i < U <= U' -> agree U st st' ->
  body pow tol i st = Some (st1, stop) ->
  exists st1',
    body pow tol i st' = Some (st1', stop) /\
    agree U st1 st1' /\
    iters st1' = iters st1 /\ find_root st1' = find_root st1 /\
    out st1' = out st1.
Proof.
  intros Inv Inv' HU Hag Hbody.
  destruct (rd_in_bounds (x st) i) as [xi Hxi]; [destruct Inv; lia |].
  destruct (rd_in_bounds (x st) (i - 1)) as [xi1 Hxi1]; [destruct Inv; lia |].
  destruct (rd_in_bounds (x st) (i - 2)) as [xi2 Hxi2]; [destruct Inv; lia |].
  destruct (rd_in_bounds (y st) i) as [yi Hyi]; [destruct Inv; lia |].
  destruct (rd_in_bounds (y st) (i - 1)) as [yi1 Hyi1]; [destruct Inv; lia |].
  destruct (rd_in_bounds (c st) (i - 2)) as [ci2 Hci2]; [destruct Inv; lia |].
  pose proof (inv_range _ _ _ _ _ _ Inv) as Hi.
  destruct (Hag i ltac:(lia)) as (Ax & Ay & _ & _).
  destruct (Hag (i - 1) ltac:(lia)) as (Ax1 & Ay1 & _ & _).
  destruct (Hag (i - 2) ltac:(lia)) as (Ax2 & _ & _ & Ac2).
  rewrite Ax in Hxi. rewrite Ax1 in Hxi1. rewrite Ax2 in Hxi2.
  rewrite Ay in Hyi. rewrite Ay1 in Hyi1. rewrite Ac2 in Hci2.
  pose proof (body_run pow tol i st' xi xi1 xi2 yi yi1 ci2 0%float
                ltac:(lia) ltac:(destruct Inv'; lia) ltac:(destruct Inv'; lia)
                ltac:(destruct Inv'; lia) ltac:(destruct Inv'; lia)
                Hxi Hxi1 Hxi2 Hyi Hyi1 Hci2
                (inv_d_zero _ _ _ _ _ _ Inv' i ltac:(lia))) as Hrun'.
  rewrite <- Ax in Hxi. rewrite <- Ax1 in Hxi1. rewrite <- Ax2 in Hxi2.
  rewrite <- Ay in Hyi. rewrite <- Ay1 in Hyi1. rewrite <- Ac2 in Hci2.
  pose proof (body_run pow tol i st xi xi1 xi2 yi yi1 ci2 0%float
                ltac:(lia) ltac:(destruct Inv; lia) ltac:(destruct Inv; lia)
                ltac:(destruct Inv; lia) ltac:(destruct Inv; lia)
                Hxi Hxi1 Hxi2 Hyi Hyi1 Hci2
                (inv_d_zero _ _ _ _ _ _ Inv i ltac:(lia))) as Hrun.
  cbv zeta in Hrun, Hrun'. rewrite Hbody in Hrun. injection Hrun as -> ->.
  eexists. split; [exact Hrun' |].
  cbn [x y d c iters find_root out].
  rewrite (inv_find_root _ _ _ _ _ _ Inv), (inv_find_root _ _ _ _ _ _ Inv'),
    (inv_out _ _ _ _ _ _ Inv), (inv_out _ _ _ _ _ _ Inv').
  split; [| done].
  intros j Hj. destruct (Hag j Hj) as (? & ? & ? & ?).
  destruct Inv, Inv'.
  repeat split; apply rd_insert_agree; auto; lia.
Qed.

(** A loop that converges within the budget [U] converges in the same pass,
    with the same history, under any larger budget. *)
Lemma loop_sim tol U U' o fuel :
  U <= U' ->
  forall i st st' stf fuel',
    loop_inv pow tol U o i st -> loop_inv pow tol U' o i st' ->
    agree U st st' ->
    loop pow fuel tol U i st = Some stf -> find_root stf = true ->
    (Z.to_nat (U' - i) <= fuel')%nat ->
    exists stf',
      loop pow fuel' tol U' i st' = Some stf' /\
      agree U stf stf' /\
      iters stf' = iters stf /\ find_root stf' = true /\ out stf' = out stf.
Proof.
  intros HU. induction fuel as [| fuel IH];
    intros i st st' stf fuel' Inv Inv' Hag; cbn [loop];
    destruct (Z.ltb_spec i U) as [Hlt | Hge]; try done;
    try (intros [= <-] Hfr; rewrite (inv_find_root _ _ _ _ _ _ Inv) in Hfr;
         done).
  destruct (body pow tol i st) as [[st1 stop] |] eqn:Hbody; [| done].
  cbn [mbind option_bind]. intros Hloop Hfr Hfuel.
  destruct (body_sim tol U U' o i st st' st1 stop Inv Inv' ltac:(lia) Hag Hbody)
    as (st1' & Hbody' & Hag1 & Hit & Hfr1 & Hout).
  destruct fuel' as [| fuel']; [lia |].
  cbn [loop]. destruct (Z.ltb_spec i U'); [| lia].
  rewrite Hbody'. cbn [mbind option_bind].
  destruct (body_inv pow tol U o i st Inv Hlt)
    as (s1 & b1 & Hb1 & _ & Hcont & _).
  destruct (body_inv pow tol U' o i st' Inv' ltac:(lia))
    as (s1' & b1' & Hb1' & _ & Hcont' & _).
  rewrite Hbody in Hb1. injection Hb1 as <- <-.
  rewrite Hbody' in Hb1'. injection Hb1' as <- <-.
  destruct stop.
  - injection Hloop as <-. exists st1'. rewrite Hfr1. done.
  - apply (IH (i + 1) st1 st1'); auto. lia.
Qed.

(** The prepared states of two budgets hold the same cells. *)
Lemma prepare_agree inp U' ax ay ad ac ax' ay' ad' ac' o st0 st0' :
  validated inp -> validated (with_iters inp U') ->
  in_iters inp <= U' ->
  sized inp ax ay ad ac -> sized (with_iters inp U') ax' ay' ad' ac' ->
  prepare pow inp ax ay ad ac o = Some st0 ->
  prepare pow (with_iters inp U') ax' ay' ad' ac' o = Some st0' ->
  agree (in_iters inp) st0 st0'.
Proof.
  intros Hv Hv' HU Hs Hs' Hp Hp'.
  destruct (prepare_run pow inp ax ay ad ac o Hv Hs)
    as (s0 & Hq & Inv & Hx0 & Hx1 & Hx2 & Hy0 & Hy1 & Hy2 & Hc0).
  destruct (prepare_run pow (with_iters inp U') ax' ay' ad' ac' o Hv' Hs')
    as (s0' & Hq' & Inv' & Hx0' & Hx1' & Hx2' & Hy0' & Hy1' & Hy2' & Hc0').
  rewrite Hp in Hq. injection Hq as <-.
  rewrite Hp' in Hq'. injection Hq' as <-.
  cbn [with_iters in_x0 in_x1 in_iters in_n] in *.
  intros j Hj. destruct Inv, Inv'.
  assert (j = 0 \/ j = 1 \/ j = 2 \/ 3 <= j) as [-> | [-> | [-> | Hj3]]] by lia.
  - rewrite Hx0, Hx0', Hy0, Hy0', Hc0, Hc0', !inv_d_zero0, !inv_d_zero1 by lia.
    done.
  - rewrite Hx1, Hx1', Hy1, Hy1', !inv_d_zero0, !inv_d_zero1,
      !inv_c_zero0, !inv_c_zero1 by lia. done.
  - rewrite Hx2, Hx2', Hy2, Hy2', !inv_d_zero0, !inv_d_zero1,
      !inv_c_zero0, !inv_c_zero1 by lia. done.
  - rewrite !inv_x_zero0, !inv_x_zero1, !inv_y_zero0, !inv_y_zero1,
      !inv_d_zero0, !inv_d_zero1, !inv_c_zero0, !inv_c_zero1 by lia. done.
Qed.

(** X13: raising the iteration budget does not change what a converging
    run prints, as long as the allocations of both runs succeed.  If the run
    on an accepted input converges, the run with any larger accepted budget
    whose four allocations succeed too, the other inputs being the same,
    prints the same output and ends with the same status. *)
Theorem larger_budget_same_output env env' inp U' :
  validated inp -> in_iters inp <= U' <= MAX_ITERATIONS ->
  allocated env -> allocated env' ->
  exists r,
    main pow env inp = Some r /\
    (count_text msg_converged (stdout r) = 1%nat ->
     exists r',
       main pow env' (with_iters inp U') = Some r' /\
       stdout r' = stdout r /\ status r' = status r).
Proof.
  intros Hv HU' Ha Ha'.
  assert (Hv' : validated (with_iters inp U')).
  { destruct Hv as (? & ? & ?). repeat split; cbn; try done; lia. }
  destruct (main_run pow env inp Hv Ha)
    as (ax & ay & ad & ac & st & last & rows & Hs & Hsolve & Post & Hmain
        & Hlen & Hrows & Hk).
  destruct (main_run pow env' _ Hv' Ha')
    as (ax' & ay' & ad' & ac' & st' & last' & rows' & Hs' & Hsolve' & Post'
        & Hmain' & Hlen' & Hrows' & Hk').
  eexists. split; [exact Hmain |]. cbn [stdout].
  rewrite !count_text_app, !(count_text_rows _ rows Hrows).
  destruct (find_root st) eqn:Hfr; [intros _ | done].
  destruct (prepare_run pow inp ax ay ad ac prompts Hv Hs)
    as (st0 & Hprep & Inv0 & _).
  destruct (prepare_run pow _ ax' ay' ad' ac' prompts Hv' Hs')
    as (st0' & Hprep' & Inv0' & _).
  pose proof (prepare_agree inp U' _ _ _ _ _ _ _ _ prompts st0 st0'
                Hv Hv' ltac:(lia) Hs Hs' Hprep Hprep') as Hag0.
  unfold solve in Hsolve, Hsolve'. rewrite Hprep in Hsolve.
  rewrite Hprep' in Hsolve'. cbn [mbind option_bind] in Hsolve, Hsolve'.
  cbn [with_iters in_iters in_n] in Hsolve', Inv0', Post', Hlen', Hk'.
  destruct (loop_sim (tolerance pow (in_n inp)) (in_iters inp) U' prompts
              (Z.to_nat (in_iters inp)) ltac:(lia) 2 st0 st0' st (Z.to_nat U')
              Inv0 Inv0' Hag0 Hsolve Hfr ltac:(lia))
    as (stf' & Hloop' & Hag & Hit & Hfr' & _).
  rewrite Hsolve' in Hloop'. injection Hloop' as <-.
  rewrite (post_iters _ _ _ _ _ _ Post), (post_iters _ _ _ _ _ _ Post') in Hit.
  injection Hit as ->.
  pose proof (post_range _ _ _ _ _ _ Post) as Hlast.
  assert (rows' = rows) as ->.
  { apply list_eq. intros k.
    destruct (decide (Z.of_nat k <= last)) as [Hle | Hgt].
    - destruct (Hk (Z.of_nat k) ltac:(lia))
        as (xv & yv & dv & cv & Ex & Ey & Ed & Ec & Hrow).
      destruct (Hk' (Z.of_nat k) ltac:(lia))
        as (xv' & yv' & dv' & cv' & Ex' & Ey' & Ed' & Ec' & Hrow').
      destruct (Hag (Z.of_nat k) ltac:(lia)) as (Ax & Ay & Ad & Ac).
      rewrite Nat2Z.id in Hrow, Hrow'. rewrite Hrow, Hrow'.
      repeat f_equal; congruence.
    - rewrite !lookup_ge_None_2 by lia. done. }
  eexists. split; [exact Hmain' |]. cbn [stdout status].
  rewrite Hfr'. done.
Qed.

End Budget.

Lemma larger_budget_same_output_witness :
  validated example1 /\ in_iters example1 <= 1000 <= MAX_ITERATIONS /\
  allocated env_ok /\ allocated env_ones /\
  exists r,
    main pow_repeated env_ok example1 = Some r /\
    count_text msg_converged (stdout r) = 1%nat /\
    exists r',
      main pow_repeated env_ones (with_iters example1 1000) = Some r' /\
      stdout r' = stdout r.
Proof.
  assert (Hb : in_iters example1 <= 1000 <= MAX_ITERATIONS)
    by (unfold MAX_ITERATIONS; cbn; lia).
  split; [exact validated_example1 |]. split; [exact Hb |].
  split; [exact allocated_env_ok |]. split; [exact allocated_env_ones |].
  destruct (larger_budget_same_output pow_repeated env_ok env_ones example1 1000
              validated_example1 Hb allocated_env_ok allocated_env_ones)
    as (r & Hmain & Hext).
  exists r. split; [exact Hmain |].
  assert (Hc : count_text msg_converged (stdout r) = 1%nat).
  { pose proof Hmain as Hm. vm_compute in Hm. injection Hm as <-. reflexivity. }
  split; [exact Hc |].
  destruct (Hext Hc) as (r' & Hmain' & Hout & _).
  exists r'. split; [exact Hmain' | exact Hout].
Defined.

Lemma table_starts_with_seeds_witness :
  validated example1 /\ allocated env_ok /\
  exists r d2 c2,
    main pow_repeated env_ok example1 = Some r /\
    stdout r !! 16%nat = Some (Row 3 1.5 9.390625 d2 c2).
Proof.
  split; [exact validated_example1 |]. split; [exact allocated_env_ok |].
  destruct (table_starts_with_seeds pow_repeated env_ok example1
              validated_example1 allocated_env_ok)
    as (r & rows & d0 & d1 & d2 & c1 & c2 & Hmain & _).
  exists r. do 2 eexists. split; [exact Hmain |].
  vm_compute in Hmain. injection Hmain as <-. vm_compute. reflexivity.
Defined.

Lemma rows_show_function_values_witness :
  validated example1 /\ allocated env_ok /\
  exists r dv cv,
    main pow_repeated env_ok example1 = Some r /\
    stdout r !! 15%nat = Some (Row 2 2 62 dv cv) /\
    62%float = (pow_repeated 2 6 - 2)%float.
Proof.
  split; [exact validated_example1 |]. split; [exact allocated_env_ok |].
  destruct (rows_show_function_values pow_repeated env_ok example1
              validated_example1 allocated_env_ok)
    as (r & Hmain & Hrows).
  exists r. do 2 eexists. split; [exact Hmain |].
  pose proof Hmain as Hm. vm_compute in Hm. injection Hm as <-.
  split; [vm_compute; reflexivity |].
  eapply (Hrows 2 2%float 62%float).
  apply (list_elem_of_lookup_2 _ 15%nat). vm_compute. reflexivity.
Defined.

Lemma not_finite_never_recovers_witness :
  validated degenerate_run /\ allocated env_ok /\
  exists r,
    main pow_repeated env_ok degenerate_run = Some r /\
    stdout r !! 17%nat = Some (Row 4 infinity infinity nan nan) /\
    is_finite infinity = false /\
    count_text msg_exhausted (stdout r) = 1%nat /\
    length (List.filter is_row (stdout r)) = 6%nat.
Proof.
  split; [exact validated_degenerate_run |]. split; [exact allocated_env_ok |].
  destruct (not_finite_never_recovers pow_repeated env_ok degenerate_run
              validated_degenerate_run allocated_env_ok)
    as (r & rows & Hmain & Hrows & H).
  exists r. split; [exact Hmain |].
  pose proof Hmain as Hm. vm_compute in Hm. injection Hm as <-.
  split; [vm_compute; reflexivity |]. split; [reflexivity |].
  subst rows.
  destruct (H 3%nat 4 infinity infinity nan nan ltac:(lia)
              ltac:(vm_compute; reflexivity) eq_refl)
    as (_ & Hlen & Hc & _).
  split; [exact Hc |]. apply Nat2Z.inj. exact Hlen.
Defined.

Lemma success_output_witness :
  validated short_run /\ allocated env_ok /\
  exists r,
    main pow_repeated env_ok short_run = Some r /\
    status r = EXIT_SUCCESS /\ length (stdout r) = 17%nat.
Proof.
  split; [exact validated_short_run |]. split; [exact allocated_env_ok |].
  destruct (success_output pow_repeated env_ok short_run
              validated_short_run allocated_env_ok)
    as (r & msg & rows & Hmain & Hstatus & _).
  exists r. split; [exact Hmain |]. split; [exact Hstatus |].
  vm_compute in Hmain. injection Hmain as <-. reflexivity.
Defined.

Lemma repeated_approximation_stops_witness :
  validated example1 /\
  sized example1 (nan_block 21) (nan_block 21) (nan_block 21) (nan_block 21) /\
  (0 <? tolerance pow_repeated (in_n example1))%float = true /\
  exists st,
    solve pow_repeated example1 (nan_block 21) (nan_block 21) (nan_block 21)
          (nan_block 21) prompts = Some st /\
    iters st = Some 9 /\
    rd (x st) 9 = rd (x st) 10.
Proof.
  assert (Htol : (0 <? tolerance pow_repeated (in_n example1))%float = true)
    by (vm_compute; reflexivity).
  split; [exact validated_example1 |]. split; [exact sized_example1 |].
  split; [exact Htol |].
  destruct (repeated_approximation_stops pow_repeated example1 _ _ _ _ prompts
              validated_example1 sized_example1 Htol)
    as (st & last & Hsolve & _).
  exists st. split; [exact Hsolve |].
  vm_compute in Hsolve. injection Hsolve as <-. split; reflexivity.
Defined.

(** ** The columns of the table *)

Section Columns.

Variable pow : float -> float -> float.

(** X14: the [c] and [d] columns of the table are the divided differences
    of its [x] and [f(x)] columns.  For consecutive rows, the [c] of a row is
    the difference quotient between it and the next row, and its [d] is the
    difference of the two [c] over the [x] two rows apart; the last row has
    no [c] and the last two have no [d] computed this way. *)
Theorem table_divided_differences env inp :
  validated inp -> allocated env ->
  exists r rows,
    main pow env inp = Some r /\
    List.filter is_row (stdout r) = rows /\
    (forall (n : nat) s0 x0 y0 d0 c0 s1 x1 y1 d1 c1,
       rows !! n = Some (Row s0 x0 y0 d0 c0) ->
       rows !! S n = Some (Row s1 x1 y1 d1 c1) ->
       c0 = ((y1 - y0) / (x1 - x0))%float) /\
    (forall (n : nat) s0 x0 y0 d0 c0 s1 x1 y1 d1 c1 s2 x2 y2 d2 c2,
       rows !! n = Some (Row s0 x0 y0 d0 c0) ->
       rows !! S n = Some (Row s1 x1 y1 d1 c1) ->
       rows !! S (S n) = Some (Row s2 x2 y2 d2 c2) ->
       d0 = ((c1 - c0) / (x2 - x0))%float).
Proof.
  intros Hv Ha.
  destruct (history_run pow env inp Hv Ha)
    as (ax & ay & ad & ac & st & last & rows & _ & _ & Post & Hmain
        & Hlen & Hrows & Hk & Hx0 & Hx1 & _ & Hc0 & Hy).
  eexists _, rows. split; [exact Hmain |]. cbn [stdout].
  split.
  { rewrite !List.filter_app, (filter_rows_only rows Hrows). done. }
  assert (Hcell : forall (n : nat) s xv yv dv cv,
            rows !! n = Some (Row s xv yv dv cv) ->
            Z.of_nat n <= last /\
            rd (x st) (Z.of_nat n) = Some xv /\ rd (y st) (Z.of_nat n) = Some yv /\
            rd (d st) (Z.of_nat n) = Some dv /\ rd (c st) (Z.of_nat n) = Some cv).
  { intros n s xv yv dv cv Hn.
    assert (Z.of_nat n <= last) by (apply lookup_lt_Some in Hn; lia).
    destruct (Hk (Z.of_nat n) ltac:(lia))
      as (xv' & yv' & dv' & cv' & ? & ? & ? & ? & Hrow).
    rewrite Nat2Z.id, Hn in Hrow. injection Hrow as _ -> -> -> ->. done. }
  split.
  - intros n s0 x0 y0 d0 c0 s1 x1 y1 d1 c1 R0 R1.
    destruct (Hcell _ _ _ _ _ _ R0) as (_ & Ex0 & Ey0 & _ & Ec0).
    destruct (Hcell _ _ _ _ _ _ R1) as (Hn1 & Ex1 & Ey1 & _ & _).
    destruct n as [| n].
    + change (Z.of_nat 0) with 0 in *. change (Z.of_nat 1) with 1 in *.
      destruct (Hy 0 ltac:(lia)) as (? & Fx0 & Fy0).
      destruct (Hy 1 ltac:(lia)) as (? & Fx1 & Fy1).
      simplify_eq. done.
    + destruct (post_steps _ _ _ _ _ _ Post (Z.of_nat (S (S n))) ltac:(lia))
        as (xk & xk1 & xk2 & yk & yk1 & ck1 & ck2 & dk2 & xn
            & Gx & Gx1 & _ & Gy & Gy1 & Gc1 & _ & _ & _ & Ec & _).
      replace (Z.of_nat (S (S n)) - 1) with (Z.of_nat (S n)) in * by lia.
      simplify_eq. done.
  - intros n s0 x0 y0 d0 c0 s1 x1 y1 d1 c1 s2 x2 y2 d2 c2 R0 R1 R2.
    destruct (Hcell _ _ _ _ _ _ R0) as (_ & Ex0 & _ & Ed0 & Ec0).
    destruct (Hcell _ _ _ _ _ _ R1) as (_ & _ & _ & _ & Ec1).
    destruct (Hcell _ _ _ _ _ _ R2) as (Hn2 & Ex2 & _ & _ & _).
    destruct (post_steps _ _ _ _ _ _ Post (Z.of_nat (S (S n))) ltac:(lia))
      as (xk & xk1 & xk2 & yk & yk1 & ck1 & ck2 & dk2 & xn
          & Gx & _ & Gx2 & _ & _ & Gc1 & Gc2 & Gd2 & _ & _ & Ed & _).
    replace (Z.of_nat (S (S n)) - 1) with (Z.of_nat (S n)) in * by lia.
    replace (Z.of_nat (S (S n)) - 2) with (Z.of_nat n) in * by lia.
    simplify_eq. done.
Qed.

End Columns.

Lemma table_divided_differences_witness :
  validated example1 /\ allocated env_ok /\
  exists r d1,
    main pow_repeated env_ok example1 = Some r /\
    stdout r !! 14%nat = Some (Row 1 1 (-1) 84.4375 63) /\
    stdout r !! 15%nat = Some (Row 2 2 62 d1 105.21875) /\
    63%float = ((62 - -1) / (2 - 1))%float.
Proof.
  split; [exact validated_example1 |]. split; [exact allocated_env_ok |].
  destruct (table_divided_differences pow_repeated env_ok example1
              validated_example1 allocated_env_ok)
    as (r & rows & Hmain & Hrows & Hc & _).
  exists r. eexists. split; [exact Hmain |].
  pose proof Hmain as Hm. vm_compute in Hm. injection Hm as <-.
  split; [vm_compute; reflexivity |]. split; [vm_compute; reflexivity |].
  subst rows. eapply (Hc 0%nat); vm_compute; reflexivity.
Defined.
